(** * mailproto/smtpd: an embedding of the SMTP session and the MIME message model

    The development follows the Go sources: [errors.go], the connection
    ([Conn]), the message parser ([Message], [Part], [parseContent]), the
    SASL framework ([Auth], [AuthPlain]) and the session loop
    ([Server.HandleSMTP]).  Go strings and byte slices are both modelled as
    [string] (a sequence of 8-bit characters).  Functions of the Go
    standard library that the package calls are collected in the class
    [GoLib]; every theorem holds for an arbitrary instance, and a small
    reference instance is used to run the examples. *)

From Stdlib Require Import ZArith String Ascii List Bool Lia DecimalString.
From stdpp Require Import base option list strings gmap.
Import ListNotations.
Open Scope string_scope.
Open Scope Z_scope.

(** ** Byte strings and the [strings] package *)

Definition bytes := string.

Definition CRLF : string := String "013" (String "010" "").

Definition ascii_upper (c : ascii) : ascii :=
  let n := nat_of_ascii c in
  if ((97 <=? n) && (n <=? 122))%nat then ascii_of_nat (n - 32) else c.

Definition ascii_lower (c : ascii) : ascii :=
  let n := nat_of_ascii c in
  if ((65 <=? n) && (n <=? 90))%nat then ascii_of_nat (n + 32) else c.

Fixpoint string_map (f : ascii -> ascii) (s : string) : string :=
  match s with
  | EmptyString => EmptyString
  | String c s' => String (f c) (string_map f s')
  end.

(** [strings.ToUpper] and [strings.ToLower] on the ASCII letters; other
    bytes are kept. *)
Definition strings_ToUpper (s : string) : string := string_map ascii_upper s.
Definition strings_ToLower (s : string) : string := string_map ascii_lower s.

Definition strings_HasPrefix (s p : string) : bool := String.prefix p s.

(** Splitting at the first occurrence of a one-byte separator. *)
Fixpoint cut (sep : ascii) (s : string) : option (string * string) :=
  match s with
  | EmptyString => None
  | String c s' =>
      if Ascii.eqb c sep then Some (EmptyString, s')
      else match cut sep s' with
           | Some (a, b) => Some (String c a, b)
           | None => None
           end
  end.

(** [strings.SplitN(s, sep, n)] for a one-byte separator: at most [n]
    pieces, the last one being the unsplit remainder; no piece for [n = 0]. *)
Fixpoint strings_SplitN (s : string) (sep : ascii) (n : nat) : list string :=
  match n with
  | O => []
  | S n' =>
      match n' with
      | O => [s]
      | S _ =>
          match cut sep s with
          | Some (a, b) => a :: strings_SplitN b sep n'
          | None => [s]
          end
      end
  end.

Definition is_space (c : ascii) : bool :=
  let n := nat_of_ascii c in
  ((n =? 32) || ((9 <=? n) && (n <=? 13)))%nat.

Fixpoint trim_left (s : string) : string :=
  match s with
  | EmptyString => EmptyString
  | String c s' => if is_space c then trim_left s' else s
  end.

Fixpoint trim_right (s : string) : string :=
  match s with
  | EmptyString => EmptyString
  | String c s' =>
      match trim_right s' with
      | EmptyString => if is_space c then EmptyString else String c EmptyString
      | r => String c r
      end
  end.

(** [strings.TrimSpace] for the ASCII white space. *)
Definition strings_TrimSpace (s : string) : string := trim_right (trim_left s).

Fixpoint strings_Join (l : list string) (sep : string) : string :=
  match l with
  | [] => EmptyString
  | [x] => x
  | x :: rest => x +:+ sep +:+ strings_Join rest sep
  end.

(** The decimal text of an integer, as [fmt] prints it with [%v]. *)
Definition itoa (z : Z) : string := NilZero.string_of_int (Z.to_int z).
Arguments itoa : simpl never.

(** Longest prefix whose bytes satisfy [p], and the rest. *)
Fixpoint span (p : ascii -> bool) (s : string) : string * string :=
  match s with
  | EmptyString => (EmptyString, EmptyString)
  | String c s' =>
      if p c then let '(a, b) := span p s' in (String c a, b)
      else (EmptyString, s)
  end.

(** ** errors.go *)

(** A Go [error] value together with its dynamic type: [SMTPErrorVal] is an
    [SMTPError] stored by value in the interface, [SMTPErrorPtr] a pointer
    to one; the type assertions of the session loop tell them apart. *)
Inductive error : Type :=
| errorString (msg : string)
| SMTPErrorVal (Code : Z) (Err : error)
| SMTPErrorPtr (Code : Z) (Err : error)
| io_EOF
| io_ErrUnexpectedEOF
| net_Error (timeout : bool) (msg : string).

Fixpoint Error (e : error) : string :=
  match e with
  | errorString msg => msg
  | SMTPErrorVal _ err => Error err
  | SMTPErrorPtr _ err => Error err
  | io_EOF => "EOF"
  | io_ErrUnexpectedEOF => "unexpected EOF"
  | net_Error _ msg => msg
  end.

Definition errors_New (msg : string) : error := errorString msg.

Definition ErrAuthFailed : error :=
  SMTPErrorVal 535 (errors_New "Authentication credentials invalid").
Definition ErrAuthCancelled : error :=
  SMTPErrorVal 501 (errors_New "Cancelled").
Definition ErrRequiresTLS : error :=
  SMTPErrorVal 538
    (errors_New "Encryption required for requested authentication mechanism").
Definition ErrTransaction : error :=
  SMTPErrorVal 501 (errors_New "Transaction unsuccessful").

(** The type assertions of [err] to [SMTPError] and to pointer-to-[SMTPError]. *)
Definition assert_SMTPError (e : error) : option (Z * error) :=
  match e with SMTPErrorVal c err => Some (c, err) | _ => None end.
Definition assert_ptr_SMTPError (e : error) : option (Z * error) :=
  match e with SMTPErrorPtr c err => Some (c, err) | _ => None end.

Definition is_io_EOF (e : error) : bool :=
  match e with io_EOF => true | _ => false end.

Definition is_net_timeout (e : error) : bool :=
  match e with net_Error t _ => t | _ => false end.

(** ** Results of the package's functions

    [Ok] and [Err] are Go's [(value, nil)] and [(zero, err)]; [Panic] is a
    run-time panic (nil dereference, index out of range); [NoFuel] marks a
    recursion or loop of the model that was cut short. *)
Inductive res (A : Type) : Type :=
| Ok (a : A)
| Err (e : error)
| Panic (msg : string)
| NoFuel.
Arguments Ok {A} a.
Arguments Err {A} e.
Arguments Panic {A} msg.
Arguments NoFuel {A}.

#[global] Instance res_ret : MRet res := fun A a => Ok a.
#[global] Instance res_bind : MBind res := fun A B f m =>
  match m with
  | Ok a => f a
  | Err e => Err e
  | Panic msg => Panic msg
  | NoFuel => NoFuel
  end.

Definition nil_deref : string := "invalid memory address or nil pointer dereference".

(** ** Addresses, headers and readers *)

Record Address : Type := mkAddress { Name : string; Addr : string }.

(** [textproto.MIMEHeader] and [mail.Header]: canonical key to values. *)
Abbreviation MIMEHeader := (gmap string (list string)).

Definition is_token_byte (c : ascii) : bool :=
  let n := nat_of_ascii c in
  (((48 <=? n) && (n <=? 57)) || ((65 <=? n) && (n <=? 90))
   || ((97 <=? n) && (n <=? 122))
   || (if in_dec Nat.eq_dec n [33; 35; 36; 37; 38; 39; 42; 43; 45; 46; 94; 95; 96; 124; 126]
       then true else false))%nat.

Fixpoint all_bytes (p : ascii -> bool) (s : string) : bool :=
  match s with
  | EmptyString => true
  | String c s' => p c && all_bytes p s'
  end.

Fixpoint canon (upper : bool) (s : string) : string :=
  match s with
  | EmptyString => EmptyString
  | String c s' =>
      String (if upper then ascii_upper c else ascii_lower c)
             (canon (Ascii.eqb c "-") s')
  end.

(** [textproto.CanonicalMIMEHeaderKey]: a key with a byte outside the header
    token alphabet is returned as it is. *)
Definition CanonicalMIMEHeaderKey (k : string) : string :=
  if all_bytes is_token_byte k then canon true k else k.

(** [Header.Get]: the first value under the canonical key, or the empty
    string. *)
Definition Get (h : MIMEHeader) (key : string) : string :=
  match h !! CanonicalMIMEHeaderKey key with
  | Some (v :: _) => v
  | _ => EmptyString
  end.

(** An [io.Reader] seen through [ioutil.ReadAll]: the bytes it delivers and
    the error that ends the stream ([None] for a clean end of input). *)
Record Reader : Type := mkReader { rd_data : bytes; rd_err : option error }.

Definition bytes_NewBuffer (b : bytes) : Reader :=
  {| rd_data := b; rd_err := None |}.

Definition ioutil_ReadAll (r : Reader) : res bytes :=
  match rd_err r with
  | None => Ok (rd_data r)
  | Some e => Err e
  end.

(** ** The Go standard library as seen by the package *)

Class GoLib : Type := {
  mail_ParseAddress : string -> res Address;
  mail_Address_String : Address -> string;
  mail_ReadMessage : bytes -> res (MIMEHeader * bytes);
  mail_AddressList : MIMEHeader -> string -> res (list Address);
  mime_ParseMediaType : string -> res (string * gmap string string);
  (** The parts a [multipart.Reader] yields through [NextPart] and the error
      that ends the iteration ([io_EOF] after the closing boundary). *)
  multipart_NewReader : Reader -> string -> list (MIMEHeader * Reader) * error;
  quotedprintable_NewReader : Reader -> Reader;
  base64_StdEncoding_Decode : bytes -> res bytes;
  (** [rand.NewSource(seed)]: the successive values of [Int63]. *)
  rand_Int63 : Z -> nat -> Z;
  (** [AddressList] fails with "mail: no address" rather than return an
      empty list. *)
  mail_AddressList_nonempty :
    forall h k l, mail_AddressList h k = Ok l -> l <> []
}.

(** ** message.go *)

(** A node of the MIME tree.  [Children] is a Go slice of pointers to
    parts: an entry may be [nil], which is [None] here. *)
#[warnings="-register-all"] Inductive Part : Type := mkPart {
  Part_Header : MIMEHeader;
  Body : bytes;
  Children : list (option Part)
}.

Record Message : Type := mkMessage {
  To : list Address;
  From : Address;
  Header : MIMEHeader;
  Subject : string;
  RawBody : bytes;
  messageID : string;
  (** [genMessageID sync.Once]: whether the once-function has run. *)
  genMessageID : bool;
  rcpt : list Address
}.

Definition idEntropy : Z := 64.
Definition letterBytes : string :=
  "abcdefghijklmnopqrstuvwxyzABCDEFGHIJKLMNOPQRSTUVWXYZ".
Definition letterIdxBits : Z := 6.
Definition letterIdxMask : Z := Z.shiftl 1 letterIdxBits - 1.
Definition letterIdxMax : Z := 63 / letterIdxBits.

Definition string_index (s : string) (i : Z) : ascii :=
  match String.get (Z.to_nat i) s with
  | Some c => c
  | None => Ascii.zero
  end.

Section WithGoLib.
Context `{L : GoLib}.

(** The loop of [Message.ID]: [i] is the next index of [b] to fill, [k] the
    number of values already drawn from the source [src]. *)
Fixpoint genID_loop (fuel : nat) (src : nat -> Z) (k : nat)
    (i cache remain : Z) (b : list ascii) : option (list ascii) :=
  if i <? 0 then Some b
  else
    match fuel with
    | O => None
    | S fuel' =>
        let '(cache, remain, k) :=
          if remain =? 0 then (src k, letterIdxMax, S k) else (cache, remain, k) in
        let idx := Z.land cache letterIdxMask in
        let '(b, i) :=
          if idx <? Z.of_nat (String.length letterBytes)
          then (<[Z.to_nat i := string_index letterBytes idx]> b, i - 1)
          else (b, i) in
        genID_loop fuel' src k i (Z.shiftr cache letterIdxBits) (remain - 1) b
    end.

Definition genID (fuel : nat) (now : Z) : option string :=
  let src := rand_Int63 now in
  let b := replicate (Z.to_nat idEntropy) Ascii.zero in
  match genID_loop fuel src 1 (idEntropy - 1) (src O) letterIdxMax b with
  | Some b => Some (string_of_list_ascii b)
  | None => None
  end.

(** [Message.ID], with the message threaded through: [now] is the clock
    reading that seeds the source, [fuel] bounds the iterations of the
    generating loop ([NoFuel] when it is exhausted). *)
Definition ID (fuel : nat) (now : Z) (m : Message) : res (string * Message) :=
  if genMessageID m then Ok (messageID m, m)
  else
    let h := Get (Header m) "Message-ID" in
    if negb (String.eqb h EmptyString) then
      Ok (h, mkMessage (To m) (From m) (Header m) (Subject m) (RawBody m)
                       h true (rcpt m))
    else
      match genID fuel now with
      | Some s =>
          Ok (s, mkMessage (To m) (From m) (Header m) (Subject m) (RawBody m)
                           s true (rcpt m))
      | None => NoFuel
      end.

(** [Message.BCC]. *)
Definition BCC (m : Message) : list Address :=
  let inHeaders : gset string :=
    foldl (fun acc to => {[ Addr to ]} ∪ acc) ∅ (To m) in
  foldl (fun bcc recipient =>
           if bool_decide (Addr recipient ∈ inHeaders) then bcc
           else (bcc ++ [recipient])%list)
        [] (rcpt m).

Fixpoint findTypeInParts (contentType : string) (parts : list (option Part))
    : res (option Part) :=
  match parts with
  | [] => Ok None
  | None :: _ => Panic nil_deref
  | Some p :: rest =>
      match mime_ParseMediaType (Get (Part_Header p) "Content-Type") with
      | Ok (mediaType, _) =>
          if String.eqb mediaType contentType then Ok (Some p)
          else findTypeInParts contentType rest
      | _ => findTypeInParts contentType rest
      end
  end.

Definition readToPart (header : MIMEHeader) (content : Reader) : res Part :=
  let cte := strings_ToLower (Get header "Content-Transfer-Encoding") in
  let content :=
    if String.eqb cte "quoted-printable" then quotedprintable_NewReader content
    else content in
  slurp ← ioutil_ReadAll content;
  slurp ← (if String.eqb cte "base64" then base64_StdEncoding_Decode slurp
           else Ok slurp);
  Ok (mkPart header slurp []).

(** [*Part] as returned by a call whose error is not looked at. *)
Definition ptr_of {A : Type} (r : res A) : option A :=
  match r with Ok a => Some a | _ => None end.

(** The [for] loop over [mr.NextPart()] in [parseContent]; [rec] is the
    recursive call. *)
Fixpoint parseContent_loop
    (rec : MIMEHeader -> Reader -> res (list (option Part)))
    (ps : list (MIMEHeader * Reader)) (fin : error)
    (parts : list (option Part)) : res (list (option Part)) :=
  match ps with
  | [] =>
      if is_io_EOF fin then Ok parts
      else Err (errorString ("MIME error: " +:+ Error fin))
  | (p_Header, p) :: ps' =>
      (* the error of readToPart is overwritten by the next assignment *)
      let part := ptr_of (readToPart p_Header p) in
      match mime_ParseMediaType (Get p_Header "Content-Type") with
      | Ok (partType, _) =>
          if strings_HasPrefix partType "multipart/" then
            match part with
            | None => Panic nil_deref
            | Some pt =>
                subParts ← rec p_Header (bytes_NewBuffer (Body pt));
                parseContent_loop rec ps' fin
                  (parts ++ [Some (mkPart (Part_Header pt) (Body pt) subParts)])%list
            end
          else parseContent_loop rec ps' fin (parts ++ [part])%list
      | Err e => Err e
      | Panic msg => Panic msg
      | NoFuel => NoFuel
      end
  end.

Fixpoint parseContent (fuel : nat) (header : MIMEHeader) (content : Reader)
    : res (list (option Part)) :=
  match fuel with
  | O => NoFuel
  | S fuel' =>
      mt ← match mime_ParseMediaType (Get header "Content-Type") with
           | Err e =>
               if String.eqb (Error e) "mime: no media type"
               then Ok ("application/octet-stream"%string, (∅ : gmap string string))
               else Err (errorString ("Media Type error: " +:+ Error e))
           | r => r
           end;
      let '(mediaType, params) := mt in
      if strings_HasPrefix mediaType "multipart/" then
        let '(ps, fin) :=
          multipart_NewReader content (default EmptyString (params !! "boundary")) in
        parseContent_loop (parseContent fuel') ps fin []
      else
        part ← readToPart header content;
        Ok [Some part]
  end.

(** [Message.Parts]. *)
Definition Parts (fuel : nat) (m : Message) : res (list (option Part)) :=
  parseContent fuel (Header m) (bytes_NewBuffer (RawBody m)).

(** [Message.Attachments]. *)
Fixpoint Attachments_loop (parts attachments : list (option Part))
    : res (list (option Part)) :=
  match parts with
  | [] => Ok attachments
  | None :: _ => Panic nil_deref
  | Some part :: rest =>
      mt ← mime_ParseMediaType (Get (Part_Header part) "Content-Type");
      if strings_HasPrefix (fst mt) "multipart/" then Attachments_loop rest attachments
      else Attachments_loop rest (attachments ++ [Some part])%list
  end.

Definition Attachments (fuel : nat) (m : Message) : res (list (option Part)) :=
  mt ← mime_ParseMediaType (Get (Header m) "Content-Type");
  parts ← Parts fuel m;
  if String.eqb (fst mt) "multipart/mixed" then Attachments_loop parts []
  else Ok [].

(** [Message.FindBody]. *)
Definition FindBody (fuel : nat) (m : Message) (contentType : string) : res bytes :=
  mt ← mime_ParseMediaType (Get (Header m) "Content-Type");
  let mediaType := fst mt in
  parts ← Parts fuel m;
  if String.eqb mediaType contentType then
    match parts with
    | Some p :: _ => Ok (Body p)
    | None :: _ => Panic nil_deref
    | [] => Err (errorString (contentType +:+ " found, but no data in body"))
    end
  else
    alternatives ←
      (if String.eqb mediaType "multipart/alternative" then Ok parts
       else
         alt ← findTypeInParts "multipart/alternative" parts;
         match alt with
         | Some a => Ok (Children a)
         | None => Ok []
         end);
    if (length alternatives =? 0)%nat then
      Err (errorString
             ("No multipart/alternative section found, can't find " +:+ contentType))
    else
      part ← findTypeInParts contentType alternatives;
      match part with
      | None =>
          Err (errorString
                 ("No " +:+ contentType +:+ " content found in multipart/alternative section"))
      | Some p => Ok (Body p)
      end.

Definition Plain (fuel : nat) (m : Message) : res bytes := FindBody fuel m "text/plain".
Definition HTML (fuel : nat) (m : Message) : res bytes := FindBody fuel m "text/html".

(** [NewMessage]: the body reader of [mail.ReadMessage] is the rest of the
    in-memory buffer, so reading it to the end cannot fail. *)
Definition NewMessage (data : bytes) (rcpt : list Address) : res Message :=
  m ← mail_ReadMessage data;
  let '(m_Header, m_Body) := m in
  to ← mail_AddressList m_Header "To";
  from ← mail_AddressList m_Header "From";
  let header : gmap string string :=
    omap (fun v => match v with [x] => Some x | _ => None end) m_Header in
  raw ← ioutil_ReadAll (bytes_NewBuffer m_Body);
  match from with
  | [] => Panic "index out of range"
  | from0 :: _ =>
      Ok (mkMessage to from0 m_Header (Get m_Header "subject") raw
                    EmptyString false rcpt)
  end.

End WithGoLib.

(** ** conn.go *)

(** [AuthUser]: the principal interface of auth.go. *)
Record AuthUser : Type := mkAuthUser {
  IsUser : string -> bool;
  Password : string
}.

(** A connection.  The embedded [net.Conn] is the first block of fields:
    the lines the peer still sends, the error a read returns once they are
    exhausted, the chunks written so far (oldest first), the local address
    and the outcome a TLS server handshake on this stream would have. *)
Record Conn : Type := mkConn {
  net_input : list string;
  net_inputEnd : error;
  net_output : list string;
  net_LocalAddr : string;
  net_handshake : option error;
  IsTLS : bool;
  Errors : list error;
  User : option AuthUser;
  FromAddr : option Address;
  ToAddr : list Address;
  MaxSize : Z;
  ReadTimeout : Z;
  WriteTimeout : Z;
  transaction : Z
}.

Definition set_input (c : Conn) (i : list string) : Conn :=
  mkConn i (net_inputEnd c) (net_output c) (net_LocalAddr c) (net_handshake c)
         (IsTLS c) (Errors c) (User c) (FromAddr c) (ToAddr c)
         (MaxSize c) (ReadTimeout c) (WriteTimeout c) (transaction c).

Definition Write (c : Conn) (b : bytes) : Conn :=
  mkConn (net_input c) (net_inputEnd c) (net_output c ++ [b])%list
         (net_LocalAddr c) (net_handshake c)
         (IsTLS c) (Errors c) (User c) (FromAddr c) (ToAddr c)
         (MaxSize c) (ReadTimeout c) (WriteTimeout c) (transaction c).

Definition set_User (c : Conn) (u : option AuthUser) : Conn :=
  mkConn (net_input c) (net_inputEnd c) (net_output c) (net_LocalAddr c)
         (net_handshake c)
         (IsTLS c) (Errors c) u (FromAddr c) (ToAddr c)
         (MaxSize c) (ReadTimeout c) (WriteTimeout c) (transaction c).

Definition set_ToAddr (c : Conn) (l : list Address) : Conn :=
  mkConn (net_input c) (net_inputEnd c) (net_output c) (net_LocalAddr c)
         (net_handshake c)
         (IsTLS c) (Errors c) (User c) (FromAddr c) l
         (MaxSize c) (ReadTimeout c) (WriteTimeout c) (transaction c).

Definition set_Errors (c : Conn) (l : list error) : Conn :=
  mkConn (net_input c) (net_inputEnd c) (net_output c) (net_LocalAddr c)
         (net_handshake c)
         (IsTLS c) l (User c) (FromAddr c) (ToAddr c)
         (MaxSize c) (ReadTimeout c) (WriteTimeout c) (transaction c).

Definition set_transaction (c : Conn) (t : Z) : Conn :=
  mkConn (net_input c) (net_inputEnd c) (net_output c) (net_LocalAddr c)
         (net_handshake c)
         (IsTLS c) (Errors c) (User c) (FromAddr c) (ToAddr c)
         (MaxSize c) (ReadTimeout c) (WriteTimeout c) t.

(** [Conn.StartTX]; [now] is [time.Now().UnixNano()]. *)
Definition StartTX (now : Z) (c : Conn) (from : Address) : Conn * option error :=
  if negb (transaction c =? 0) then (c, Some ErrTransaction)
  else
    (mkConn (net_input c) (net_inputEnd c) (net_output c) (net_LocalAddr c)
            (net_handshake c)
            (IsTLS c) (Errors c) (User c) (Some from) (ToAddr c)
            (MaxSize c) (ReadTimeout c) (WriteTimeout c) now,
     None).

(** [Conn.EndTX]. *)
Definition EndTX (c : Conn) : Conn * option error :=
  if transaction c =? 0 then (c, Some ErrTransaction)
  else (set_transaction c 0, None).

(** [Conn.Reset]. *)
Definition Reset (c : Conn) : Conn :=
  mkConn (net_input c) (net_inputEnd c) (net_output c) (net_LocalAddr c)
         (net_handshake c)
         (IsTLS c) (Errors c) None None []
         (MaxSize c) (ReadTimeout c) (WriteTimeout c) 0.

(** [textproto.Conn.ReadLine] on the connection. *)
Definition tp_ReadLine (c : Conn) : Conn * res string :=
  match net_input c with
  | line :: rest => (set_input c rest, Ok line)
  | [] => (c, Err (net_inputEnd c))
  end.

(** [Conn.ReadSMTP]. *)
Definition ReadSMTP (c : Conn) : Conn * res (string * string) :=
  let '(c, r) := tp_ReadLine c in
  match r with
  | Ok line =>
      let command := strings_SplitN line " " 2 in
      let verb := strings_ToUpper (nth 0 command EmptyString) in
      let args := match command with
                  | _ :: a :: _ => a
                  | _ => EmptyString
                  end in
      (c, Ok (verb, args))
  | Err e => (c, Err e)
  | Panic msg => (c, Panic msg)
  | NoFuel => (c, NoFuel)
  end.

(** [Conn.ReadLine]. *)
Definition ReadLine (c : Conn) : Conn * res string := tp_ReadLine c.

(** [textproto.Reader.ReadDotLines]: lines up to a line with a single dot,
    one leading dot removed from the others. *)
Fixpoint ReadDotLines (input : list string) (inputEnd : error)
    (lines : list string) : list string * list string * option error :=
  match input with
  | [] =>
      (input, lines,
       Some (if is_io_EOF inputEnd then io_ErrUnexpectedEOF else inputEnd))
  | line :: rest =>
      match line with
      | String "." EmptyString => (rest, lines, None)
      | String "." line' => ReadDotLines rest inputEnd (lines ++ [line'])%list
      | _ => ReadDotLines rest inputEnd (lines ++ [line])%list
      end
  end.

(** [Conn.ReadData]. *)
Definition ReadData (c : Conn) : Conn * (string * option error) :=
  let '(rest, lines, err) := ReadDotLines (net_input c) (net_inputEnd c) [] in
  (set_input c rest, (strings_Join lines (String "010" EmptyString), err)).

(** [Conn.WriteSMTP], [Conn.WriteEHLO] and [Conn.WriteOK].  The error of the
    write is dropped by every caller in the package. *)
Definition smtp_line (code : Z) (message : string) : string :=
  itoa code +:+ " " +:+ message +:+ CRLF.

Definition ehlo_line (message : string) : string :=
  "250-" +:+ message +:+ CRLF.

Definition WriteSMTP (c : Conn) (code : Z) (message : string) : Conn :=
  Write c (smtp_line code message).

Definition WriteEHLO (c : Conn) (message : string) : Conn :=
  Write c (ehlo_line message).

Definition WriteOK (c : Conn) : Conn := WriteSMTP c 250 "OK".

(** ** extension.go *)

Record Extension : Type := mkExtension {
  Handle : Conn -> string -> Conn * option error;
  EHLO : string
}.

(** ** auth.go *)

(** [AuthExtension]: a SASL mechanism. *)
Record AuthExtension : Type := mkAuthExtension {
  Mechanism_Handle : Conn -> string -> Conn * (option AuthUser * option error)
}.

Record Auth : Type := mkAuth { Mechanisms : gmap string AuthExtension }.

Definition NewAuth : Auth := mkAuth ∅.

(** [Auth.Handle]. *)
Definition Auth_Handle (a : Auth) (c : Conn) (args : string) : Conn * option error :=
  let mech := strings_SplitN args " " 2 in
  let mech0 := nth 0 mech EmptyString in
  match Mechanisms a !! strings_ToUpper mech0 with
  | Some m =>
      let args := match mech with
                  | [_; a1] => a1
                  | _ => EmptyString
                  end in
      let '(c, (user, err)) := Mechanism_Handle m c args in
      match err with
      | None => (set_User c user, None)
      | Some e => (c, Some e)
      end
  | None =>
      (c, Some (SMTPErrorPtr 500
                  (errorString ("AUTH mechanism " +:+ mech0 +:+ " not available"))))
  end.

(** [Auth.EHLO]. *)
Definition Auth_EHLO (a : Auth) : string :=
  strings_Join (map fst (map_to_list (Mechanisms a))) " ".

(** [Auth.Extend]. *)
Definition Auth_Extend (a : Auth) (mechanism : string) (extension : AuthExtension)
    : Auth * option error :=
  let mechanism := strings_ToUpper mechanism in
  match Mechanisms a !! mechanism with
  | Some _ =>
      (a, Some (errorString
                  ("AUTH mechanism " +:+ mechanism +:+ " is already implemented")))
  | None => (mkAuth (<[mechanism := extension]> (Mechanisms a)), None)
  end.

(** [*Auth] used as the server's [Extension]. *)
Definition Auth_Extension (a : Auth) : Extension :=
  mkExtension (Auth_Handle a) (Auth_EHLO a).

Definition SimpleAuthFunc : Type := string -> string -> option AuthUser * bool.

Section WithGoLibAuth.
Context `{L : GoLib}.

(** [AuthPlain.unpack]. *)
Definition AuthPlain_unpack (line : string) : res (string * string) :=
  rawCreds ← base64_StdEncoding_Decode line;
  match strings_SplitN rawCreds Ascii.zero 3 with
  | [_; c1; c2] => Ok (c1, c2)
  | _ => Err (errorString "Malformed auth string")
  end.

Definition res_error {A : Type} (r : res A) : error :=
  match r with
  | Err e => e
  | Panic msg => errorString msg
  | _ => errorString EmptyString
  end.

(** [AuthPlain.Handle]. *)
Definition AuthPlain_Handle (a : SimpleAuthFunc) (conn : Conn) (params : string)
    : Conn * (option AuthUser * option error) :=
  if negb (IsTLS conn) then (conn, (None, Some ErrRequiresTLS))
  else if String.eqb (strings_TrimSpace params) EmptyString then
    let conn := WriteSMTP conn 334 EmptyString in
    let '(conn, r) := ReadLine conn in
    match r with
    | Ok line =>
        match AuthPlain_unpack line with
        | Ok (username, password) =>
            let '(user, isAuth) := a username password in
            if isAuth then (conn, (user, None))
            else (conn, (None, Some ErrAuthFailed))
        | bad => (conn, (None, Some (res_error bad)))
        end
    | bad => (conn, (None, Some (res_error bad)))
    end
  else
    match AuthPlain_unpack params with
    | Ok (username, password) =>
        let '(user, isAuth) := a username password in
        if isAuth then (conn, (user, None))
        else (conn, (None, Some ErrAuthFailed))
    | _ => (conn, (None, Some ErrAuthFailed))
    end.

Definition AuthPlain (a : SimpleAuthFunc) : AuthExtension :=
  mkAuthExtension (AuthPlain_Handle a).

End WithGoLibAuth.

(** ** smtpd.go *)

Record tls_Config : Type := mk_tls_Config { tls_ServerName : string }.

Record Server : Type := mkServer {
  Server_Name : string;
  TLSConfig : option tls_Config;
  ServerName : string;
  Server_MaxSize : Z;
  MaxCommands : Z;
  Handler : Message -> option error;
  Server_Auth : option Extension;
  Extensions : gmap string Extension;
  Disabled : gmap string bool;
  Help : string;
  Server_ReadTimeout : Z;
  Server_WriteTimeout : Z
}.

(** What one pass through the body of the read loop asks for: the next
    iteration, [break ReadLoop], [return err], a panic, or a loop of the
    model that ran out of fuel. *)
Inductive control : Type :=
| Continue
| Break
| Return (e : error)
| Crash (msg : string)
| Hang.

(** [Server.Greeting]. *)
Definition Greeting (s : Server) (conn : Conn) : string :=
  "Welcome! [" +:+ net_LocalAddr conn +:+ "]".

(** [Server.Extend]. *)
Definition Extend (s : Server) (verb : string) (extension : Extension)
    : Server * option error :=
  match Extensions s !! verb with
  | Some _ =>
      (s, Some (errorString
                  ("Extension for " +:+ verb +:+ " has already been registered")))
  | None =>
      (mkServer (Server_Name s) (TLSConfig s) (ServerName s) (Server_MaxSize s)
                (MaxCommands s) (Handler s) (Server_Auth s)
                (<[verb := extension]> (Extensions s)) (Disabled s) (Help s)
                (Server_ReadTimeout s) (Server_WriteTimeout s),
       None)
  end.

(** [pathRegex], [<([^@>]+@[^@>]+)>]: both character classes exclude the
    byte that must follow them, so a match from a given [<] is the one
    found by taking each run as long as it goes. *)
Definition notAtGt (c : ascii) : bool :=
  negb (Ascii.eqb c "@") && negb (Ascii.eqb c ">").

Definition pathRegex_at (s : string) : option string :=
  match s with
  | String "<" r =>
      let '(local, r1) := span notAtGt r in
      match local, r1 with
      | String _ _, String "@" r2 =>
          let '(domain, r3) := span notAtGt r2 in
          match domain, r3 with
          | String _ _, String ">" _ => Some ("<" +:+ local +:+ "@" +:+ domain +:+ ">")
          | _, _ => None
          end
      | _, _ => None
      end
  | _ => None
  end.

(** [pathRegex.FindString]: the leftmost match, or the empty string. *)
Fixpoint pathRegex_FindString (s : string) : string :=
  match pathRegex_at s with
  | Some m => m
  | None =>
      match s with
      | EmptyString => EmptyString
      | String _ s' => pathRegex_FindString s'
      end
  end.

Section WithGoLibServer.
Context `{L : GoLib}.

(** [Server.GetAddressArg]. *)
Definition GetAddressArg (s : Server) (argName args : string) : res Address :=
  match strings_SplitN args ":" 2 with
  | [a0; a1] =>
      if String.eqb (strings_ToUpper a0) argName then
        let path := pathRegex_FindString a1 in
        if String.eqb path EmptyString then
          Err (errorString ("couldnt find valid FROM path in " +:+ a1))
        else mail_ParseAddress path
      else Err (errorString "Bad arguments")
  | _ => Err (errorString "Bad arguments")
  end.

(** The handshake of [tls.Server(conn, config)]: without a configuration
    there is no certificate to present and the handshake fails. *)
Definition tls_Handshake (conn : Conn) (config : option tls_Config) : option error :=
  match config with
  | None => Some (errorString "tls: no certificates configured")
  | Some _ => net_handshake conn
  end.

Definition verb_in (verb : string) (l : list string) : bool :=
  existsb (String.eqb verb) l.

(** The [EHLO] case of the switch. *)
Definition handle_EHLO (s : Server) (conn : Conn) : Conn :=
  let conn := Reset conn in
  let conn := WriteEHLO conn (ServerName s +:+ " " +:+ Greeting s conn) in
  let conn := WriteEHLO conn ("SIZE " +:+ itoa (Server_MaxSize s)) in
  let conn :=
    if negb (IsTLS conn) && bool_decide (TLSConfig s <> None)
    then WriteEHLO conn "STARTTLS" else conn in
  let conn :=
    match User conn, Server_Auth s with
    | None, Some auth => WriteEHLO conn ("AUTH " +:+ EHLO auth)
    | _, _ => conn
    end in
  let conn :=
    foldl (fun conn ve => WriteEHLO conn (fst ve +:+ " " +:+ EHLO (snd ve)))
          conn (map_to_list (Extensions s)) in
  WriteSMTP conn 250 "HELP".

(** The [MAIL] case. *)
Definition handle_MAIL (s : Server) (now : Z) (conn : Conn) (args : string) : Conn :=
  match GetAddressArg s "FROM" args with
  | Ok from =>
      if match User conn with
         | None => true
         | Some u => IsUser u (Addr from)
         end
      then
        let '(conn, err) := StartTX now conn from in
        match err with
        | None => WriteSMTP conn 250 "Accepted"
        | Some e => WriteSMTP conn 501 (Error e)
        end
      else WriteSMTP conn 501 ("Cannot send mail as " +:+ mail_Address_String from)
  | bad => WriteSMTP conn 501 (Error (res_error bad))
  end.

(** The [RCPT] case. *)
Definition handle_RCPT (s : Server) (conn : Conn) (args : string) : Conn :=
  match GetAddressArg s "TO" args with
  | Ok to =>
      let conn := set_ToAddr conn (ToAddr conn ++ [to])%list in
      WriteSMTP conn 250 "Accepted"
  | bad => WriteSMTP conn 501 (Error (res_error bad))
  end.

(** The [DATA] case. *)
Definition handle_DATA (s : Server) (now : Z) (fuel : nat) (conn : Conn)
    : Conn * control :=
  let conn :=
    WriteSMTP conn 354
      ("Enter message, ending with " +:+ String "034" "." +:+ String "034" " on a line by itself") in
  let '(conn, (data, rerr)) := ReadData conn in
  match rerr with
  | Some _ => (conn, Continue)
  | None =>
      match NewMessage data (ToAddr conn) with
      | Ok message =>
          let '(conn', etx) := EndTX conn in
          match etx with
          | None =>
              match Handler s message with
              | None =>
                  match ID fuel now message with
                  | Ok (id, _) =>
                      (WriteSMTP conn' 250 ("OK : queued as " +:+ id), Continue)
                  | Panic msg => (conn', Crash msg)
                  | _ => (conn', Hang)
                  end
              | Some err =>
                  match assert_SMTPError err with
                  | Some (code, _) => (WriteSMTP conn' code (Error err), Continue)
                  | None =>
                      (WriteSMTP conn' 554 ("Error: I blame me. " +:+ Error err),
                       Continue)
                  end
              end
          | Some _ =>
              (WriteSMTP conn' 554 "Error: I blame you. <nil>", Continue)
          end
      | Err err => (WriteSMTP conn 554 ("Error: I blame you. " +:+ Error err), Continue)
      | Panic msg => (conn, Crash msg)
      | NoFuel => (conn, Hang)
      end
  end.

(** The [STARTTLS] case. *)
Definition handle_STARTTLS (s : Server) (conn : Conn) : Conn * control :=
  let conn := WriteSMTP conn 220 "Ready to start TLS" in
  match tls_Handshake conn (TLSConfig s) with
  | None =>
      (mkConn (net_input conn) (net_inputEnd conn) (net_output conn)
              (net_LocalAddr conn) (net_handshake conn)
              true (Errors conn) (User conn) None []
              (MaxSize conn) (Server_ReadTimeout s) (Server_WriteTimeout s) 0,
       Continue)
  | Some _ => (conn, Break)
  end.

(** The [AUTH] case. *)
Definition handle_AUTH (s : Server) (conn : Conn) (args : string) : Conn :=
  match User conn with
  | Some _ => WriteSMTP conn 503 "You are already authenticated"
  | None =>
      match Server_Auth s with
      | Some auth =>
          let '(conn, err) := Handle auth conn args in
          match err with
          | Some err =>
              match assert_ptr_SMTPError err with
              | Some (code, _) => WriteSMTP conn code (Error err)
              | None => WriteSMTP conn 500 "Authentication failed"
              end
          | None => WriteSMTP conn 235 "Authentication succeeded"
          end
      | None => WriteSMTP conn 502 "Command not implemented"
      end
  end.

(** The built-in [switch verb] of the read loop. *)
Definition builtin (s : Server) (now : Z) (fuel : nat) (conn : Conn)
    (verb args : string) : Conn * control :=
  if String.eqb verb "HELO" then
    (WriteSMTP conn 250 (ServerName s +:+ " Hello"), Continue)
  else if String.eqb verb "EHLO" then (handle_EHLO s conn, Continue)
  else if String.eqb verb "MAIL" then (handle_MAIL s now conn args, Continue)
  else if String.eqb verb "RCPT" then (handle_RCPT s conn args, Continue)
  else if String.eqb verb "DATA" then handle_DATA s now fuel conn
  else if String.eqb verb "RSET" then (WriteOK (Reset conn), Continue)
  else if String.eqb verb "VRFY" then
    (WriteSMTP conn 252 "But it was worth a shot, right?", Continue)
  else if String.eqb verb "EXPN" then
    (WriteSMTP conn 252 "Maybe, maybe not", Continue)
  else if String.eqb verb "HELP" then
    let msg := if negb (String.eqb (Help s) EmptyString) then Help s
               else "contact the owner of " +:+ ServerName s +:+ " for more information" in
    (WriteSMTP conn 214 msg, Continue)
  else if String.eqb verb "NOOP" then (WriteOK conn, Continue)
  else if String.eqb verb "QUIT" then (WriteSMTP conn 221 "Bye", Break)
  else if String.eqb verb "STARTTLS" then handle_STARTTLS s conn
  else if String.eqb verb "AUTH" then (handle_AUTH s conn args, Continue)
  else
    let conn := WriteSMTP conn 500 "Syntax error, command unrecognised" in
    let conn :=
      set_Errors conn
        (Errors conn ++ [errorString ("bad input: " +:+ verb +:+ " " +:+ args)])%list in
    if (3 <? length (Errors conn))%nat then
      (WriteSMTP conn 500 "Too many unrecognized commands", Break)
    else (conn, Continue).

(** The body of the read loop once a command has been read: disabled
    verbs, the authentication gate, the extensions, then the switch. *)
Definition dispatch (s : Server) (now : Z) (fuel : nat) (conn : Conn)
    (verb args : string) : Conn * control :=
  if default false (Disabled s !! verb) then
    if String.eqb verb "EHLO" then (WriteSMTP conn 550 "Not implemented", Continue)
    else (WriteSMTP conn 502 "Command not implemented", Continue)
  else if bool_decide (Server_Auth s <> None) && bool_decide (User conn = None)
          && negb (verb_in verb ["AUTH"; "EHLO"; "HELO"; "NOOP"; "RSET"; "QUIT"; "STARTTLS"])
  then
    if String.eqb verb "*" then (WriteSMTP conn 501 "Cancelled", Continue)
    else (WriteSMTP conn 530 "Authentication required", Continue)
  else
    match Extensions s !! verb with
    | Some ext => (fst (Handle ext conn args), Continue)
    | None => builtin s now fuel conn verb args
    end.

(** The read loop; [clock i] is the clock reading during iteration [i]. *)
Fixpoint ReadLoop (n : nat) (s : Server) (clock : nat -> Z) (i : nat)
    (fuel : nat) (conn : Conn) : Conn * res unit :=
  match n with
  | O => (conn, Ok tt)
  | S n' =>
      let '(conn, r) := ReadSMTP conn in
      match r with
      | Ok (verb, args) =>
          let '(conn, ctl) := dispatch s (clock i) fuel conn verb args in
          match ctl with
          | Continue => ReadLoop n' s clock (S i) fuel conn
          | Break => (conn, Ok tt)
          | Return e => (conn, Err e)
          | Crash msg => (conn, Panic msg)
          | Hang => (conn, NoFuel)
          end
      | Err err =>
          if is_io_EOF err || is_net_timeout err then (conn, Ok tt)
          else (conn, Err err)
      | Panic msg => (conn, Panic msg)
      | NoFuel => (conn, NoFuel)
      end
  end.

(** [Server.HandleSMTP]; [stamp] is the current time in the RFC1123Z
    layout. *)
Definition HandleSMTP (s : Server) (stamp : string) (clock : nat -> Z)
    (fuel : nat) (conn : Conn) : Conn * res unit :=
  let conn := WriteSMTP conn 220 (Server_Name s +:+ " " +:+ stamp) in
  ReadLoop (Z.to_nat (MaxCommands s)) s clock O fuel conn.

End WithGoLibServer.

(** ** A reference instance of the standard library

    Small executable models of the library functions, enough to run the
    package on the messages of its test suite.  They are used only to
    evaluate examples; the theorems are stated for every instance. *)
Module Ref.

Definition LF : ascii := "010"%char.
Definition CR : ascii := "013"%char.
Definition DQUOTE : ascii := "034"%char.

(** The first line of [s] without its line feed, and what follows it. *)
Fixpoint read_line (s : string) : string * string :=
  match s with
  | EmptyString => (EmptyString, EmptyString)
  | String c r =>
      if Ascii.eqb c LF then (EmptyString, r)
      else let '(l, rest) := read_line r in (String c l, rest)
  end.

Fixpoint chomp_cr (l : string) : string :=
  match l with
  | EmptyString => EmptyString
  | String c EmptyString => if Ascii.eqb c CR then EmptyString else l
  | String c r => String c (chomp_cr r)
  end.

Definition starts_blank (l : string) : bool :=
  match l with
  | String c _ => Ascii.eqb c " " || Ascii.eqb c "009"
  | EmptyString => false
  end.

Fixpoint append_last (vs : list string) (x : string) : list string :=
  match vs with
  | [] => [x]
  | [v] => [v +:+ " " +:+ x]
  | v :: r => v :: append_last r x
  end.

(** A header block up to its blank line: canonical keys, folded lines
    joined to the value they continue. *)
Fixpoint read_header (fuel : nat) (s : string) (h : MIMEHeader)
    (last : option string) : res (MIMEHeader * string) :=
  match fuel with
  | O => Ok (h, EmptyString)
  | S fuel' =>
      if String.eqb s EmptyString then Ok (h, EmptyString)
      else
        let '(raw, rest) := read_line s in
        let l := chomp_cr raw in
        if String.eqb l EmptyString then Ok (h, rest)
        else if starts_blank l then
          match last with
          | Some k =>
              read_header fuel' rest
                (<[k := append_last (default [] (h !! k)) (strings_TrimSpace l)]> h)
                last
          | None => Err (errorString ("malformed MIME header initial line: " +:+ l))
          end
        else
          match cut ":" l with
          | Some (k, v) =>
              let k := CanonicalMIMEHeaderKey k in
              read_header fuel' rest
                (<[k := (default [] (h !! k) ++ [strings_TrimSpace v])%list]> h)
                (Some k)
          | None => Err (errorString ("malformed MIME header line: " +:+ l))
          end
  end.

Definition ReadMessage (data : bytes) : res (MIMEHeader * bytes) :=
  read_header (S (String.length data)) data ∅ None.

Definition is_atext (c : ascii) : bool := is_token_byte c || Ascii.eqb c "/" || Ascii.eqb c "=" || Ascii.eqb c "?".

Definition strip_quotes (s : string) : string :=
  match s with
  | String c r =>
      if Ascii.eqb c DQUOTE then
        match cut DQUOTE r with
        | Some (a, _) => a
        | None => s
        end
      else s
  | EmptyString => s
  end.

Definition addr_spec (s : string) : res string :=
  match cut "@" s with
  | Some (String c l, String d dm) =>
      if all_bytes is_atext (String c l) && all_bytes is_atext (String d dm)
      then Ok s
      else Err (errorString "mail: no angle-addr")
  | _ => Err (errorString "mail: missing '@' or angle-addr")
  end.

(** One mailbox: [addr-spec], or a display name followed by the address
    between angle brackets. *)
Definition ParseAddress (s : string) : res Address :=
  let s := strings_TrimSpace s in
  match cut "<" s with
  | Some (name, r) =>
      match cut ">" r with
      | Some (a, EmptyString) =>
          a ← addr_spec a;
          Ok (mkAddress (strip_quotes (strings_TrimSpace name)) a)
      | Some _ => Err (errorString "mail: expected single address")
      | None => Err (errorString "mail: unclosed angle-addr")
      end
  | None => a ← addr_spec s; Ok (mkAddress EmptyString a)
  end.

Fixpoint split_all (fuel : nat) (sep : ascii) (s : string) : list string :=
  match fuel with
  | O => [s]
  | S fuel' =>
      match cut sep s with
      | Some (a, b) => a :: split_all fuel' sep b
      | None => [s]
      end
  end.

Fixpoint parse_all (l : list string) : res (list Address) :=
  match l with
  | [] => Ok []
  | x :: r => a ← ParseAddress x; as' ← parse_all r; Ok (a :: as')
  end.

Definition AddressList (h : MIMEHeader) (key : string) : res (list Address) :=
  match h !! CanonicalMIMEHeaderKey key with
  | Some (v :: _) =>
      l ← parse_all (split_all (String.length v) "," v);
      match l with
      | [] => Err (errorString "mail: no address")
      | _ => Ok l
      end
  | _ => Err (errorString "mail: header not in message")
  end.

Definition Address_String (a : Address) : string :=
  if String.eqb (Name a) EmptyString then "<" +:+ Addr a +:+ ">"
  else String DQUOTE (Name a) +:+ String DQUOTE (" <" +:+ Addr a +:+ ">").

Fixpoint parse_params (l : list string) (m : gmap string string) : gmap string string :=
  match l with
  | [] => m
  | x :: r =>
      match cut "=" x with
      | Some (k, v) =>
          parse_params r
            (<[strings_ToLower (strings_TrimSpace k) := strip_quotes (strings_TrimSpace v)]> m)
      | None => parse_params r m
      end
  end.

Definition ParseMediaType (v : string) : res (string * gmap string string) :=
  match split_all (String.length v) ";" v with
  | t :: ps =>
      let t := strings_ToLower (strings_TrimSpace t) in
      if String.eqb t EmptyString then Err (errorString "mime: no media type")
      else
        match cut "/" t with
        | Some (String _ _, String _ _) => Ok (t, parse_params ps ∅)
        | _ => Err (errorString "mime: expected slash after first token")
        end
  | [] => Err (errorString "mime: no media type")
  end.

Definition hex_val (c : ascii) : option nat :=
  let n := nat_of_ascii c in
  if ((48 <=? n) && (n <=? 57))%nat then Some (n - 48)%nat
  else if ((65 <=? n) && (n <=? 70))%nat then Some (n - 55)%nat
  else if ((97 <=? n) && (n <=? 102))%nat then Some (n - 87)%nat
  else None.

(** Quoted-printable: [=XX] is a byte, [=] before a line end a soft break. *)
Fixpoint qp_decode (s : string) : string * option error :=
  match s with
  | EmptyString => (EmptyString, None)
  | String c r =>
      if Ascii.eqb c "=" then
        match r with
        | String a r1 =>
            if Ascii.eqb a LF then qp_decode r1
            else
              match r1 with
              | String b r2 =>
                  if Ascii.eqb a CR && Ascii.eqb b LF then qp_decode r2
                  else
                    match hex_val a, hex_val b with
                    | Some x, Some y =>
                        let '(d, e) := qp_decode r2 in
                        (String (ascii_of_nat (16 * x + y)) d, e)
                    | _, _ =>
                        (EmptyString,
                         Some (errorString "quotedprintable: invalid hex byte"))
                    end
              | EmptyString =>
                  (EmptyString,
                   Some (errorString "quotedprintable: invalid bytes after ="))
              end
        | EmptyString => (EmptyString, None)
        end
      else let '(d, e) := qp_decode r in (String c d, e)
  end.

Definition qp_NewReader (r : Reader) : Reader :=
  let '(d, e) := qp_decode (rd_data r) in
  mkReader d (match e with Some _ => e | None => rd_err r end).

Definition b64_val (c : ascii) : option nat :=
  let n := nat_of_ascii c in
  if ((65 <=? n) && (n <=? 90))%nat then Some (n - 65)%nat
  else if ((97 <=? n) && (n <=? 122))%nat then Some (n - 71)%nat
  else if ((48 <=? n) && (n <=? 57))%nat then Some (n + 4)%nat
  else if (n =? 43)%nat then Some 62%nat
  else if (n =? 47)%nat then Some 63%nat
  else None.

Definition corrupt : error := errorString "illegal base64 data".

Fixpoint b64_groups (l : list ascii) : res (list ascii) :=
  match l with
  | [] => Ok []
  | a :: b :: c :: d :: rest =>
      match b64_val a, b64_val b with
      | Some x, Some y =>
          let b0 := ascii_of_nat (x * 4 + y / 16) in
          if Ascii.eqb c "=" then
            if Ascii.eqb d "=" then
              match rest with [] => Ok [b0] | _ => Err corrupt end
            else Err corrupt
          else
            match b64_val c with
            | Some z =>
                let b1 := ascii_of_nat ((y mod 16) * 16 + z / 4) in
                if Ascii.eqb d "=" then
                  match rest with [] => Ok [b0; b1] | _ => Err corrupt end
                else
                  match b64_val d with
                  | Some w =>
                      let b2 := ascii_of_nat ((z mod 4) * 64 + w) in
                      tl ← b64_groups rest; Ok (b0 :: b1 :: b2 :: tl)
                  | None => Err corrupt
                  end
            | None => Err corrupt
            end
      | _, _ => Err corrupt
      end
  | _ => Err corrupt
  end.

(** Standard base64 with padding; line breaks in the input are skipped. *)
Definition b64_Decode (src : bytes) : res bytes :=
  l ← b64_groups
        (List.filter (fun c => negb (Ascii.eqb c CR || Ascii.eqb c LF))
                     (list_ascii_of_string src));
  Ok (string_of_list_ascii l).

(** Lines up to the next boundary line: the text before it (without the
    line end that belongs to the boundary), whether the boundary is the
    closing one, and what follows. *)
Fixpoint read_body (fuel : nat) (s boundary acc : string) (first : bool)
    : option (string * bool * string) :=
  match fuel with
  | O => None
  | S fuel' =>
      if String.eqb s EmptyString then None
      else
        let '(raw, rest) := read_line s in
        let l := chomp_cr raw in
        if String.eqb l ("--" +:+ boundary) then Some (chomp_cr acc, false, rest)
        else if String.eqb l ("--" +:+ boundary +:+ "--") then Some (chomp_cr acc, true, rest)
        else
          read_body fuel' rest boundary
            (if first then raw else acc +:+ String LF raw) false
  end.

Definition mk_part (h : MIMEHeader) (body : bytes) (e : option error)
    : MIMEHeader * Reader :=
  let cte := "Content-Transfer-Encoding" in
  if String.eqb (strings_ToLower (Get h cte)) "quoted-printable"
  then (delete cte h, qp_NewReader (mkReader body e))
  else (h, mkReader body e).

Fixpoint read_parts (fuel : nat) (s boundary : string)
    (acc : list (MIMEHeader * Reader)) : list (MIMEHeader * Reader) * error :=
  match fuel with
  | O => (acc, io_ErrUnexpectedEOF)
  | S fuel' =>
      match read_header (S (String.length s)) s ∅ None with
      | Ok (h, rest) =>
          match read_body (S (String.length rest)) rest boundary EmptyString true with
          | Some (body, final, rest') =>
              let acc := (acc ++ [mk_part h body None])%list in
              if final then (acc, io_EOF) else read_parts fuel' rest' boundary acc
          | None =>
              ((acc ++ [mk_part h rest (Some io_ErrUnexpectedEOF)])%list,
               errorString "multipart: NextPart: EOF")
          end
      | Err e => (acc, e)
      | _ => (acc, io_ErrUnexpectedEOF)
      end
  end.

Definition NewReader (r : Reader) (boundary : string)
    : list (MIMEHeader * Reader) * error :=
  let s := rd_data r in
  match read_body (S (String.length s)) s boundary EmptyString true with
  | Some (_, true, _) => ([], io_EOF)
  | Some (_, false, rest) => read_parts (S (String.length rest)) rest boundary []
  | None => ([], errorString "multipart: NextPart: EOF")
  end.

Definition Int63 (seed : Z) (k : nat) : Z :=
  ((seed + Z.of_nat k) * 6364136223846793005 + 1442695040888963407) mod 2 ^ 63.

Lemma AddressList_nonempty h k l : AddressList h k = Ok l -> l <> [].
Proof.
  unfold AddressList.
  destruct (h !! CanonicalMIMEHeaderKey k) as [[|v vs]|]; try discriminate.
  destruct (parse_all _) as [[|a r]| | |]; simpl; try discriminate.
  intros [= <-]. discriminate.
Qed.

#[export] Instance lib : GoLib := {|
  mail_ParseAddress := ParseAddress;
  mail_Address_String := Address_String;
  mail_ReadMessage := ReadMessage;
  mail_AddressList := AddressList;
  mime_ParseMediaType := ParseMediaType;
  multipart_NewReader := NewReader;
  quotedprintable_NewReader := qp_NewReader;
  base64_StdEncoding_Decode := b64_Decode;
  rand_Int63 := Int63;
  mail_AddressList_nonempty := AddressList_nonempty
|}.

End Ref.

(** * Properties *)

Open Scope list_scope.

(** ** BCC inference *)

Section BCCProperties.

Lemma inHeaders_elem (tos : list Address) (acc : gset string) (a : string) :
  a ∈ foldl (fun acc to => {[ Addr to ]} ∪ acc) acc tos
  ↔ a ∈ acc ∨ a ∈ Addr <$> tos.
Proof.
  revert acc. induction tos as [|t tos IH]; intros acc; simpl.
  - rewrite elem_of_nil. tauto.
  - rewrite IH, elem_of_union, elem_of_singleton, elem_of_cons. tauto.
Qed.

Lemma BCC_loop_filter (P : Address -> Prop) `{!∀ r, Decision (P r)}
    (rs acc : list Address) :
  foldl (fun bcc recipient =>
           if bool_decide (P recipient) then bcc else bcc ++ [recipient])
        acc rs
  = acc ++ filter (fun r => ¬ P r) rs.
Proof.
  revert acc. induction rs as [|r rs IH]; intros acc; simpl.
  - by rewrite filter_nil, app_nil_r.
  - rewrite IH. destruct (decide (P r)) as [Hp|Hp].
    + rewrite bool_decide_eq_true_2 by done.
      rewrite filter_cons_False by tauto. done.
    + rewrite bool_decide_eq_false_2 by done.
      rewrite filter_cons_True by done.
      by rewrite <- app_assoc.
Qed.

(** C7. [BCC] is the envelope recipients whose address is not the address
    of any [To] entry, in envelope order: it is the difference of [rcpt] by
    [To] keyed by the address string, so no address of the result occurs
    among the [To] addresses and every element of the result is a
    recipient. *)
Theorem BCC_is_rcpt_minus_to (m : Message) :
  BCC m = filter (fun r => Addr r ∉ Addr <$> To m) (rcpt m)
  ∧ (∀ r, r ∈ BCC m ↔ r ∈ rcpt m ∧ ∀ t, t ∈ To m → Addr t ≠ Addr r)
  ∧ (∀ r, r ∈ BCC m → Addr r ∉ Addr <$> To m)
  ∧ BCC m ⊆ rcpt m.
Proof.
  assert (Heq : BCC m = filter (fun r => Addr r ∉ Addr <$> To m) (rcpt m)).
  { unfold BCC.
    rewrite (BCC_loop_filter
               (fun r => Addr r ∈ foldl (fun acc to => {[ Addr to ]} ∪ acc) ∅ (To m))).
    simpl. apply list_filter_iff. intros r.
    rewrite inHeaders_elem, elem_of_empty. tauto. }
  split; [exact Heq|]. rewrite Heq.
  split; [|split].
  - intros r. rewrite list_elem_of_filter, list_elem_of_fmap. split.
    + intros [Hn Hr]. split; [done|]. intros t Ht Heq'. apply Hn. eauto.
    + intros [Hr Hn]. split; [|done]. intros (t & Ht1 & Ht2).
      by apply (Hn t).
  - intros r. rewrite list_elem_of_filter. tauto.
  - intros r. rewrite list_elem_of_filter. tauto.
Qed.

End BCCProperties.

(** ** The message identifier *)

Section IDProperties.
Context `{L : GoLib}.

(** The 6-bit groups the generating loop looks at in its first [fuel]
    iterations. *)
Fixpoint chunks (fuel : nat) (src : nat -> Z) (k : nat) (cache remain : Z)
    : list Z :=
  match fuel with
  | O => []
  | S fuel' =>
      let '(cache, remain, k) :=
        if remain =? 0 then (src k, letterIdxMax, S k) else (cache, remain, k) in
      Z.land cache letterIdxMask
        :: chunks fuel' src k (Z.shiftr cache letterIdxBits) (remain - 1)
  end.

(** How many of them index a letter. *)
Definition usable (l : list Z) : nat :=
  length (List.filter (fun idx => idx <? Z.of_nat (String.length letterBytes)) l).

Lemma genID_loop_length fuel src k i cache remain b b' :
  genID_loop fuel src k i cache remain b = Some b' -> length b' = length b.
Proof.
  revert k i cache remain b.
  induction fuel as [|fuel IH]; intros k i cache remain b; simpl.
  - destruct (i <? 0); [|discriminate]. by intros [= <-].
  - destruct (i <? 0); [by intros [= <-]|].
    destruct (remain =? 0); cbv zeta iota beta;
      match goal with |- context [if ?c then _ else _] => destruct c end;
      intros H; apply IH in H; rewrite H; by rewrite ?length_insert.
Qed.

Lemma genID_loop_total fuel src k i cache remain b :
  -1 <= i ->
  (Z.to_nat (i + 1) <= usable (chunks fuel src k cache remain))%nat ->
  exists b', genID_loop fuel src k i cache remain b = Some b'.
Proof.
  revert k i cache remain b.
  induction fuel as [|fuel IH]; intros k i cache remain b Hi Hu.
  - unfold usable in Hu. simpl in Hu.
    assert (i = -1) as -> by lia. simpl. eauto.
  - cbn [genID_loop]. destruct (i <? 0) eqn:Hneg; [eauto|].
    apply Z.ltb_ge in Hneg.
    unfold usable in Hu. cbn [chunks] in Hu.
    destruct (remain =? 0); cbv zeta iota beta in Hu |- *;
      cbn [List.filter] in Hu;
      match goal with |- context [if ?c then _ else _] => destruct c end;
      cbn [length] in Hu; apply IH; unfold usable; lia.
Qed.

(** The state of a message on which [ID] may already have run: a recorded
    identifier is the header's value whenever the header has one. *)
Definition id_recorded (m : Message) : Prop :=
  genMessageID m = true ->
  Get (Header m) "Message-ID" <> EmptyString ->
  messageID m = Get (Header m) "Message-ID".

Lemma NewMessage_id_fresh data rcpts m :
  NewMessage data rcpts = Ok m -> genMessageID m = false.
Proof.
  unfold NewMessage.
  destruct (mail_ReadMessage data) as [[h body]| | |]; simpl; try discriminate.
  destruct (mail_AddressList h "To") as [to| | |]; simpl; try discriminate.
  destruct (mail_AddressList h "From") as [[|f fs]| | |]; simpl; try discriminate.
  by intros [= <-].
Qed.

Lemma ID_memo fuel now m s m' :
  ID fuel now m = Ok (s, m') ->
  messageID m' = s /\ genMessageID m' = true /\ Header m' = Header m.
Proof.
  unfold ID. destruct (genMessageID m) eqn:Hg.
  - by intros [= <- <-].
  - destruct (negb _).
    + by intros [= <- <-].
    + destruct (genID fuel now); [|discriminate]. by intros [= <- <-].
Qed.

(** C8 (as amended). Once a call of [ID] has returned, every later call
    returns the same string and leaves the message as it is, whatever the
    clock and without drawing from the random source (no fuel is needed);
    on a message on which [ID] has not run, a Message-ID header with a
    non-empty value is what [ID] returns; and a recorded identifier stays
    in agreement with the header. *)
Theorem ID_memoised_and_header (fuel : nat) (now : Z) (m : Message) (s : string)
    (m' : Message) :
  ID fuel now m = Ok (s, m') ->
  (forall fuel' now', ID fuel' now' m' = Ok (s, m'))
  /\ (genMessageID m = false ->
      Get (Header m) "Message-ID" <> EmptyString ->
      s = Get (Header m) "Message-ID")
  /\ (id_recorded m -> id_recorded m').
Proof.
  intros H. pose proof (ID_memo _ _ _ _ _ H) as (Hs & Hg & Hh).
  split; [|split].
  - intros fuel' now'. unfold ID. rewrite Hg, Hs. done.
  - intros Hfresh Hne. unfold ID in H. rewrite Hfresh in H.
    destruct (String.eqb _ EmptyString) eqn:He.
    + apply String.eqb_eq in He. contradiction.
    + simpl in H. by injection H as <- _.
  - intros Hrec _ Hne. rewrite Hh in *. rewrite Hs.
    unfold ID in H. destruct (genMessageID m) eqn:Hgm.
    + injection H as <- <-. by apply Hrec.
    + destruct (String.eqb _ EmptyString) eqn:He.
      * apply String.eqb_eq in He. contradiction.
      * simpl in H. by injection H as <- _.
Qed.

(** [ID] returns: at once when an identifier is recorded or the header has
    a value, and otherwise as soon as the source has delivered 64 groups
    that index a letter; the generated token has 64 bytes. *)
Lemma ID_returns (fuel : nat) (now : Z) (m : Message) :
  genMessageID m = true
  \/ Get (Header m) "Message-ID" <> EmptyString
  \/ (64 <= usable (chunks fuel (rand_Int63 now) 1 (rand_Int63 now O) letterIdxMax))%nat ->
  exists s m', ID fuel now m = Ok (s, m').
Proof.
  intros H. unfold ID.
  destruct (genMessageID m) eqn:Hg; [eauto|].
  destruct (String.eqb _ EmptyString) eqn:He; simpl; [|eauto].
  apply String.eqb_eq in He.
  destruct H as [H|[H|H]]; [discriminate|contradiction|].
  unfold genID.
  destruct (genID_loop_total fuel (rand_Int63 now) 1 (idEntropy - 1)
              (rand_Int63 now O) letterIdxMax
              (replicate (Z.to_nat idEntropy) Ascii.zero)) as [b' Hb'].
  - unfold idEntropy. lia.
  - exact H.
  - rewrite Hb'. eauto.
Qed.

Lemma genID_length (fuel : nat) (now : Z) (s : string) :
  genID fuel now = Some s -> String.length s = 64%nat.
Proof.
  unfold genID.
  destruct (genID_loop _ _ _ _ _ _ _) as [b|] eqn:Hb; [|discriminate].
  intros [= <-]. apply genID_loop_length in Hb.
  rewrite length_replicate in Hb.
  change (Z.to_nat idEntropy) with 64%nat in Hb. rewrite <- Hb.
  generalize b. intros l. induction l; simpl; congruence.
Qed.

End IDProperties.

(** ** Message construction *)

Section NewMessageProperties.
Context `{L : GoLib}.


(** C10. When the header block parses but the To address list does not,
    or the To list parses and the From list does not, [NewMessage] returns
    that error and no message; the body is not examined. *)
Theorem NewMessage_needs_To_and_From (data : bytes) (rcpts : list Address)
    (hdr : MIMEHeader) (body : bytes) (e : error) :
  mail_ReadMessage data = Ok (hdr, body) ->
  mail_AddressList hdr "To" = Err e
  \/ (exists to, mail_AddressList hdr "To" = Ok to)
     /\ mail_AddressList hdr "From" = Err e ->
  NewMessage data rcpts = Err e
  /\ (forall body',
        mail_ReadMessage data = Ok (hdr, body') -> NewMessage data rcpts = Err e).
Proof.
  intros Hm H.
  assert (Hgen : forall b, mail_ReadMessage data = Ok (hdr, b) ->
                           NewMessage data rcpts = Err e).
  { intros b Hb. unfold NewMessage. rewrite Hb. simpl.
    destruct H as [Hto|[[to Hto] Hfrom]]; rewrite Hto; simpl; [done|].
    rewrite Hfrom. done. }
  split; eauto.
Qed.

End NewMessageProperties.

(** ** Transfer decoding of leaf parts *)

Section DecodingProperties.
Context `{L : GoLib}.

(** What [readToPart] does by the value of Content-Transfer-Encoding. *)
Definition transfer_decode (cte : string) (content : Reader) : res bytes :=
  if String.eqb (strings_ToLower cte) "quoted-printable" then
    ioutil_ReadAll (quotedprintable_NewReader content)
  else if String.eqb (strings_ToLower cte) "base64" then
    raw ← ioutil_ReadAll content; base64_StdEncoding_Decode raw
  else ioutil_ReadAll content.

Lemma readToPart_decodes (header : MIMEHeader) (content : Reader) :
  readToPart header content
  = (b ← transfer_decode (Get header "Content-Transfer-Encoding") content;
     Ok (mkPart header b [])).
Proof.
  unfold readToPart, transfer_decode.
  destruct (String.eqb (strings_ToLower _) "quoted-printable") eqn:Hq.
  - apply String.eqb_eq in Hq. rewrite Hq. simpl.
    by destruct (ioutil_ReadAll _).
  - destruct (String.eqb (strings_ToLower _) "base64");
      destruct (ioutil_ReadAll content) as [raw| | |]; simpl; try done;
      by destruct (base64_StdEncoding_Decode raw).
Qed.

(** A message or part whose media type is not multipart is one leaf: its
    body is the transfer-decoded content, and a decoding error is the
    result of the parse. *)
Lemma parseContent_leaf (fuel : nat) (header : MIMEHeader) (content : Reader)
    (mediaType : string) (params : gmap string string) :
  mime_ParseMediaType (Get header "Content-Type") = Ok (mediaType, params) ->
  strings_HasPrefix mediaType "multipart/" = false ->
  parseContent (S fuel) header content
  = (b ← transfer_decode (Get header "Content-Transfer-Encoding") content;
     Ok [Some (mkPart header b [])]).
Proof.
  intros Hmt Hleaf. simpl. rewrite Hmt. simpl. rewrite Hleaf.
  rewrite readToPart_decodes.
  by destruct (transfer_decode _ _).
Qed.

(** C5 (the defect). Inside a multipart body the error of [readToPart] is
    lost: a sub-part that is a leaf and whose transfer decoding fails
    leaves a nil entry in the list of parts and the parse reports success
    (the sub-parts before and after it are kept). *)
Theorem parseContent_drops_leaf_error (fuel : nat) (header : MIMEHeader)
    (content : Reader) (mediaType : string) (params : gmap string string)
    (p_Header : MIMEHeader) (p : Reader) (partType : string)
    (partParams : gmap string string) (e : error) :
  mime_ParseMediaType (Get header "Content-Type") = Ok (mediaType, params) ->
  strings_HasPrefix mediaType "multipart/" = true ->
  multipart_NewReader content (default EmptyString (params !! "boundary"))
    = ([(p_Header, p)], io_EOF) ->
  mime_ParseMediaType (Get p_Header "Content-Type") = Ok (partType, partParams) ->
  strings_HasPrefix partType "multipart/" = false ->
  transfer_decode (Get p_Header "Content-Transfer-Encoding") p = Err e ->
  readToPart p_Header p = Err e
  /\ parseContent (S fuel) header content = Ok [None].
Proof.
  intros Hmt Hmulti Hmr Hpt Hleaf Hdec.
  assert (Hr : readToPart p_Header p = Err e).
  { rewrite readToPart_decodes, Hdec. done. }
  split; [exact Hr|].
  simpl. rewrite Hmt. simpl. rewrite Hmulti, Hmr. simpl.
  rewrite Hr, Hpt, Hleaf. done.
Qed.

End DecodingProperties.

(** ** Body accessors *)

Section FindBodyProperties.
Context `{L : GoLib}.

(** The three ways [FindBody] fails to find a body. *)
Inductive find_failure : Type :=
| FoundNoData
| NoAlternativeSection
| NoContentInAlternative.

(** The text of each failure in the source. *)
Definition failure_message (ct : string) (f : find_failure) : string :=
  match f with
  | FoundNoData => ct +:+ " found, but no data in body"
  | NoAlternativeSection =>
      "No multipart/alternative section found, can't find " +:+ ct
  | NoContentInAlternative =>
      "No " +:+ ct +:+ " content found in multipart/alternative section"
  end.

Definition found (ct : string) (r : find_failure + bytes) : res bytes :=
  match r with
  | inl f => Err (errorString (failure_message ct f))
  | inr b => Ok b
  end.


(** The parts of a list without nil entries. *)
Definition the_parts (l : list (option Part)) : list Part := omap id l.









(** A message whose only content is text/html: [HTML] returns the decoded
    body and [Plain] fails. *)
Lemma html_only_message (fuel : nat) (m : Message) (params : gmap string string)
    (b : bytes) :
  mime_ParseMediaType (Get (Header m) "Content-Type") = Ok ("text/html"%string, params) ->
  transfer_decode (Get (Header m) "Content-Transfer-Encoding")
                  (bytes_NewBuffer (RawBody m)) = Ok b ->
  HTML (S fuel) m = Ok b
  /\ Plain (S fuel) m = found "text/plain" (inl NoAlternativeSection).
Proof.
  intros Hmt Hdec.
  assert (Hp : Parts (S fuel) m = Ok [Some (mkPart (Header m) b [])]).
  { unfold Parts. rewrite (parseContent_leaf _ _ _ _ _ Hmt eq_refl), Hdec. done. }
  unfold HTML, Plain, FindBody. rewrite Hmt, Hp. simpl.
  split; [done|]. by rewrite Hmt.
Qed.

End FindBodyProperties.

(** ** The session loop *)

Section SessionProperties.
Context `{L : GoLib}.



Lemma string_app_assoc (a b c : string) :
  a +:+ (b +:+ c) = (a +:+ b) +:+ c.
Proof.
  induction a as [|x a IH]; [reflexivity|].
  change (String x (a +:+ (b +:+ c)) = String x ((a +:+ b) +:+ c)).
  by rewrite IH.
Qed.



(** The capability texts of an EHLO reply, in the order they are written. *)
Definition ehlo_messages (s : Server) (conn : Conn) : list string :=
  [ServerName s +:+ " " +:+ Greeting s conn;
   "SIZE " +:+ itoa (Server_MaxSize s)]
  ++ (if negb (IsTLS conn) && bool_decide (TLSConfig s <> None)
      then ["STARTTLS"%string] else [])
  ++ match Server_Auth s with
     | Some auth => ["AUTH " +:+ EHLO auth]
     | None => []
     end
  ++ map (fun ve => fst ve +:+ " " +:+ EHLO (snd ve)) (map_to_list (Extensions s)).

(** Reduction of the connection updates and of the projections of a
    connection, and of nothing else. *)
Ltac conn_simpl :=
  cbn [Reset WriteEHLO WriteSMTP WriteOK Write set_input set_User set_ToAddr
       set_Errors set_transaction
       net_input net_inputEnd net_output net_LocalAddr net_handshake IsTLS
       Errors User FromAddr ToAddr MaxSize ReadTimeout WriteTimeout transaction
       fst snd] in *.

Lemma foldl_WriteEHLO (f : string * Extension -> string)
    (l : list (string * Extension)) (c : Conn) :
  foldl (fun conn ve => WriteEHLO conn (f ve)) c l
  = mkConn (net_input c) (net_inputEnd c)
           (net_output c ++ map (fun ve => ehlo_line (f ve)) l)
           (net_LocalAddr c) (net_handshake c)
           (IsTLS c) (Errors c) (User c) (FromAddr c) (ToAddr c)
           (MaxSize c) (ReadTimeout c) (WriteTimeout c) (transaction c).
Proof.
  revert c. induction l as [|ve l IH]; intros c; cbn [foldl map].
  - rewrite app_nil_r. by destruct c.
  - rewrite IH. destruct c. conn_simpl. by rewrite <- app_assoc.
Qed.

Lemma handle_EHLO_state (s : Server) (conn : Conn) :
  handle_EHLO s conn
  = mkConn (net_input conn) (net_inputEnd conn)
           (net_output conn
            ++ map ehlo_line (ehlo_messages s conn) ++ [smtp_line 250 "HELP"])
           (net_LocalAddr conn) (net_handshake conn)
           (IsTLS conn) (Errors conn) None None []
           (MaxSize conn) (ReadTimeout conn) (WriteTimeout conn) 0.
Proof.
  destruct conn. unfold handle_EHLO, ehlo_messages, Greeting. conn_simpl.
  destruct (negb IsTLS0 && bool_decide (TLSConfig s <> None));
    destruct (Server_Auth s); conn_simpl;
    rewrite foldl_WriteEHLO; conn_simpl; unfold WriteSMTP, Write; conn_simpl;
    f_equal; rewrite ?map_app, ?map_map; cbn [map app];
    rewrite <- ?app_assoc; cbn [app]; reflexivity.
Qed.







(** *** AUTH *)

(** The PLAIN mechanism refuses a connection without TLS before it reads
    or writes anything. *)
Lemma AuthPlain_requires_TLS (f : SimpleAuthFunc) (conn : Conn) (params : string) :
  IsTLS conn = false ->
  AuthPlain_Handle f conn params = (conn, (None, Some ErrRequiresTLS)).
Proof. intros H. unfold AuthPlain_Handle. by rewrite H. Qed.

Lemma AuthPlain_keeps_User (f : SimpleAuthFunc) (conn : Conn) (params : string) :
  User (fst (AuthPlain_Handle f conn params)) = User conn.
Proof.
  unfold AuthPlain_Handle.
  destruct (negb (IsTLS conn)); [done|].
  destruct (String.eqb _ _).
  - unfold ReadLine, tp_ReadLine, WriteSMTP, Write. simpl.
    destruct (net_input conn) as [|line rest]; simpl; [done|].
    destruct (AuthPlain_unpack line) as [[u p]| | |]; simpl; try done.
    destruct (f u p) as [user []]; done.
  - destruct (AuthPlain_unpack params) as [[u p]| | |]; simpl; try done.
    destruct (f u p) as [user []]; done.
Qed.

(** C1 (the defect). On a server whose authentication extension is the
    package's [Auth] with the PLAIN mechanism, a client that issues AUTH
    PLAIN on a connection without TLS makes the mechanism fail with
    [ErrRequiresTLS], whose code is 538, and the user stays unset; but the
    error is an [SMTPError] value and the AUTH case asserts a pointer, so
    the line written to the client is [500 Authentication failed] and no
    line with code 538 is written. *)
Theorem AUTH_PLAIN_without_TLS (s : Server) (now : Z) (fuel : nat) (conn : Conn)
    (a : Auth) (f : SimpleAuthFunc) (args : string) :
  default false (Disabled s !! "AUTH") = false ->
  Extensions s !! "AUTH" = None ->
  Server_Auth s = Some (Auth_Extension a) ->
  Mechanisms a !! "PLAIN" = Some (AuthPlain f) ->
  strings_ToUpper (nth 0 (strings_SplitN args " " 2) EmptyString) = "PLAIN"%string ->
  IsTLS conn = false ->
  User conn = None ->
  (forall params,
     Mechanism_Handle (AuthPlain f) conn params = (conn, (None, Some ErrRequiresTLS)))
  /\ assert_SMTPError ErrRequiresTLS
     = Some (538, errors_New "Encryption required for requested authentication mechanism")
  /\ dispatch s now fuel conn "AUTH" args
     = (WriteSMTP conn 500 "Authentication failed", Continue)
  /\ net_output (fst (dispatch s now fuel conn "AUTH" args))
     = net_output conn ++ [("500 Authentication failed" +:+ CRLF)%string]
  /\ (forall message,
        smtp_line 538 message ∉ [("500 Authentication failed" +:+ CRLF)%string])
  /\ User (fst (dispatch s now fuel conn "AUTH" args)) = None.
Proof.
  intros Hd He Hauth Hmech Hargs Htls Huser.
  assert (Hdisp : dispatch s now fuel conn "AUTH" args
                  = (WriteSMTP conn 500 "Authentication failed", Continue)).
  { unfold dispatch. rewrite Hd. simpl. rewrite andb_false_r, He.
    unfold builtin. simpl. unfold handle_AUTH. rewrite Huser, Hauth. simpl.
    unfold Auth_Handle. rewrite Hargs, Hmech. simpl.
    rewrite (AuthPlain_requires_TLS f conn _ Htls). reflexivity. }
  split; [intros; by apply AuthPlain_requires_TLS|].
  split; [reflexivity|]. split; [exact Hdisp|]. rewrite Hdisp. simpl.
  split; [reflexivity|]. split; [|exact Huser].
  intros message Hin. apply list_elem_of_singleton in Hin. discriminate.
Qed.

(** *** The authenticated user *)

Lemma handle_EHLO_User (s : Server) (conn : Conn) : User (handle_EHLO s conn) = None.
Proof. by rewrite handle_EHLO_state. Qed.

Lemma handle_MAIL_User (s : Server) (now : Z) (conn : Conn) (args : string) :
  User (handle_MAIL s now conn args) = User conn.
Proof.
  unfold handle_MAIL, StartTX. destruct conn. conn_simpl.
  destruct (GetAddressArg s "FROM" args); try reflexivity.
  destruct (match User0 with Some u => IsUser u (Addr a) | None => true end);
    [|reflexivity].
  destruct (negb (transaction0 =? 0)); reflexivity.
Qed.

Lemma handle_RCPT_User (s : Server) (conn : Conn) (args : string) :
  User (handle_RCPT s conn args) = User conn.
Proof.
  unfold handle_RCPT. destruct conn.
  destruct (GetAddressArg s "TO" args); reflexivity.
Qed.

Lemma handle_DATA_User (s : Server) (now : Z) (fuel : nat) (conn : Conn) :
  User (fst (handle_DATA s now fuel conn)) = User conn.
Proof.
  unfold handle_DATA, ReadData, EndTX. destruct conn. conn_simpl.
  destruct (ReadDotLines net_input0 net_inputEnd0 []) as [[rest lines] err].
  conn_simpl. destruct err; [reflexivity|].
  destruct (NewMessage _ _) as [message| | |]; try reflexivity.
  conn_simpl. destruct (transaction0 =? 0); [reflexivity|]. conn_simpl.
  destruct (Handler s message) as [err|].
  - destruct (assert_SMTPError err) as [[code e]|]; reflexivity.
  - destruct (ID fuel now message) as [[id m']| | |]; reflexivity.
Qed.

Lemma handle_STARTTLS_User (s : Server) (conn : Conn) :
  User (fst (handle_STARTTLS s conn)) = User conn.
Proof.
  unfold handle_STARTTLS. destruct conn. conn_simpl.
  destruct (tls_Handshake _ _); reflexivity.
Qed.

(** No built-in verb other than AUTH sets the user: it is left as it was
    or cleared. *)
Lemma builtin_User (s : Server) (now : Z) (fuel : nat) (conn : Conn)
    (verb args : string) :
  verb <> "AUTH"%string ->
  User (fst (builtin s now fuel conn verb args)) = User conn
  \/ User (fst (builtin s now fuel conn verb args)) = None.
Proof.
  intros Hverb. unfold builtin.
  repeat match goal with
         | |- context [if String.eqb verb ?v then _ else _] =>
             destruct (String.eqb verb v) eqn:?
         end; cbn [fst].
  - left. by destruct conn.
  - right. apply handle_EHLO_User.
  - left. apply handle_MAIL_User.
  - left. apply handle_RCPT_User.
  - left. apply handle_DATA_User.
  - right. by destruct conn.
  - left. by destruct conn.
  - left. by destruct conn.
  - left. by destruct conn.
  - left. by destruct conn.
  - left. by destruct conn.
  - left. apply handle_STARTTLS_User.
  - match goal with
    | H : String.eqb verb "AUTH" = true |- _ => by apply String.eqb_eq in H
    end.
  - left. destruct conn. conn_simpl.
    destruct (_ <? _)%nat; reflexivity.
Qed.

(** The package's [Auth] sets the user only when the mechanism returns no
    error, provided the mechanisms themselves leave the user alone (as
    [AuthPlain] does). *)
Lemma Auth_Handle_User (a : Auth) (conn : Conn) (args : string) :
  (forall k m, Mechanisms a !! k = Some m ->
               forall c p, User (fst (Mechanism_Handle m c p)) = User c) ->
  snd (Auth_Handle a conn args) <> None ->
  User (fst (Auth_Handle a conn args)) = User conn.
Proof.
  intros Hmech. unfold Auth_Handle.
  destruct (Mechanisms a !! _) as [m|] eqn:Hm; [|done].
  pose proof (Hmech _ _ Hm conn
                (match strings_SplitN args " " 2 with
                 | [_; a1] => a1
                 | _ => EmptyString
                 end)) as Hu.
  destruct (Mechanism_Handle m conn _) as [c [user [e|]]]; cbn [fst snd] in *;
    [intros _; exact Hu|done].
Qed.

Lemma handle_AUTH_User (s : Server) (conn : Conn) (args : string) (a : Auth) :
  Server_Auth s = Some (Auth_Extension a) ->
  (forall k m, Mechanisms a !! k = Some m ->
               forall c p, User (fst (Mechanism_Handle m c p)) = User c) ->
  User (handle_AUTH s conn args) = User conn
  \/ exists c1, Auth_Handle a conn args = (c1, None)
                /\ handle_AUTH s conn args
                   = WriteSMTP c1 235 "Authentication succeeded".
Proof.
  intros Hauth Hmech. unfold handle_AUTH. rewrite Hauth.
  destruct (User conn) as [u|] eqn:Hu.
  { left. destruct conn. conn_simpl. exact Hu. }
  cbn [Handle Auth_Extension].
  pose proof (Auth_Handle_User a conn args Hmech) as Hkeep.
  destruct (Auth_Handle a conn args) as [c1 [e|]]; cbn [fst snd] in Hkeep.
  - left. rewrite <- Hu, <- Hkeep by done.
    destruct (assert_ptr_SMTPError e) as [[code e']|]; by destruct c1.
  - right. eauto.
Qed.

(** C2 (as amended). For a command that reaches the built-in dispatch:
    RSET answers [250 OK] and clears the user together with the sender, the
    recipients and the transaction; EHLO clears the user; no verb other
    than AUTH ever sets it; and AUTH, with the package's [Auth] framework,
    changes it only when the mechanism has succeeded and the reply is 235. *)
Theorem user_lifecycle (s : Server) (now : Z) (fuel : nat) (conn : Conn)
    (verb args : string) :
  default false (Disabled s !! verb) = false ->
  Extensions s !! verb = None ->
  (verb = "RSET"%string ->
   dispatch s now fuel conn verb args = (WriteOK (Reset conn), Continue)
   /\ User (fst (dispatch s now fuel conn verb args)) = None
   /\ FromAddr (fst (dispatch s now fuel conn verb args)) = None
   /\ ToAddr (fst (dispatch s now fuel conn verb args)) = []
   /\ transaction (fst (dispatch s now fuel conn verb args)) = 0
   /\ net_output (fst (dispatch s now fuel conn verb args))
      = net_output conn ++ [("250 OK" +:+ CRLF)%string])
  /\ (verb = "EHLO"%string ->
      User (fst (dispatch s now fuel conn verb args)) = None)
  /\ (verb <> "AUTH"%string ->
      User (fst (dispatch s now fuel conn verb args)) = User conn
      \/ User (fst (dispatch s now fuel conn verb args)) = None)
  /\ (verb = "AUTH"%string ->
      forall a,
        Server_Auth s = Some (Auth_Extension a) ->
        (forall k m, Mechanisms a !! k = Some m ->
                     forall c p, User (fst (Mechanism_Handle m c p)) = User c) ->
        User (fst (dispatch s now fuel conn verb args)) = User conn
        \/ exists c1, Auth_Handle a conn args = (c1, None)
                      /\ fst (dispatch s now fuel conn verb args)
                         = WriteSMTP c1 235 "Authentication succeeded").
Proof.
  intros Hd He.
  assert (Hpass : verb_in verb ["AUTH"; "EHLO"; "HELO"; "NOOP"; "RSET"; "QUIT"; "STARTTLS"]
                  = true ->
                  dispatch s now fuel conn verb args = builtin s now fuel conn verb args).
  { intros Hin. unfold dispatch. by rewrite Hd, Hin, andb_false_r, He. }
  split; [|split; [|split]].
  - intros ->. rewrite Hpass by reflexivity.
    change (builtin s now fuel conn "RSET" args) with (WriteOK (Reset conn), Continue).
    by destruct conn.
  - intros ->. rewrite Hpass by reflexivity.
    change (builtin s now fuel conn "EHLO" args) with (handle_EHLO s conn, Continue).
    apply handle_EHLO_User.
  - intros Hverb. unfold dispatch. rewrite Hd, He.
    destruct (_ && _).
    + left. destruct (String.eqb verb "*"); by destruct conn.
    + by apply builtin_User.
  - intros -> a Hauth Hmech. rewrite Hpass by reflexivity.
    change (builtin s now fuel conn "AUTH" args) with (handle_AUTH s conn args, Continue).
    by apply handle_AUTH_User.
Qed.

(** *** MAIL *)


End SessionProperties.

(** * Examples

    The theorems applied to concrete sessions and messages, evaluated with
    the reference instance of the library. *)
Module Examples.
Import Ref.

Definition NL : string := String "010" EmptyString.

Definition lines (l : list string) : string := strings_Join l NL.

Definition accept_all : Message -> option error := fun _ => None.

Definition alice : AuthUser := mkAuthUser (fun _ => true) "secret".

Definition check_alice : SimpleAuthFunc :=
  fun username password =>
    if String.eqb username "alice" && String.eqb password "secret"
    then (Some alice, true) else (None, false).

Definition plain_auth : Auth := fst (Auth_Extend NewAuth "plain" (AuthPlain check_alice)).

(** A server without authentication and without TLS. *)
Definition open_server : Server :=
  mkServer "mx.example.org" None "mx.example.org" 131072 100 accept_all
           None ∅ ∅ EmptyString 10 10.

(** A server with TLS and the PLAIN mechanism. *)
Definition auth_server : Server :=
  mkServer "mx.example.org" (Some (mk_tls_Config "mx.example.org"))
           "mx.example.org" 131072 100 accept_all
           (Some (Auth_Extension plain_auth)) ∅ ∅ EmptyString 10 10.

(** A fresh connection whose peer sends [input] and then closes. *)
Definition fresh (input : list string) : Conn :=
  mkConn input io_EOF [] "127.0.0.1:2525" None
         false [] None None [] 131072 10 10 0.

Definition clock (i : nat) : Z := 1700000000 + Z.of_nat i.

(** C1: AUTH PLAIN on a connection without TLS. *)
Lemma AUTH_PLAIN_without_TLS_example :
  dispatch auth_server 1 0 (fresh []) "AUTH" "PLAIN"
  = (WriteSMTP (fresh []) 500 "Authentication failed", Continue)
  /\ net_output (fst (dispatch auth_server 1 0 (fresh []) "AUTH" "PLAIN"))
     = [("500 Authentication failed" +:+ CRLF)%string]
  /\ User (fst (dispatch auth_server 1 0 (fresh []) "AUTH" "PLAIN")) = None.
Proof.
  destruct (AUTH_PLAIN_without_TLS auth_server 1 0 (fresh []) plain_auth
              check_alice "PLAIN")
    as (_ & _ & H1 & H2 & _ & H3); try reflexivity.
  split; [exact H1|]. split; [exact H2|exact H3].
Defined.


(** C2: a client logs in over TLS and then sends RSET. *)
Definition login : list string :=
  ["STARTTLS"; "AUTH PLAIN AGFsaWNlAHNlY3JldA=="; "RSET"].

Lemma RSET_clears_user :
  User (fst (ReadLoop 2 auth_server clock 0 0 (fresh login))) = Some alice
  /\ net_input (fst (ReadLoop 2 auth_server clock 0 0 (fresh login))) = ["RSET"%string]
  /\ User (fst (ReadLoop 3 auth_server clock 0 0 (fresh login))) = None
  /\ User (fst (ReadLoop 3 auth_server clock 0 0 (fresh login)))
     <> User (fst (ReadLoop 2 auth_server clock 0 0 (fresh login))).
Proof. vm_compute. repeat split; discriminate. Qed.

Lemma user_lifecycle_example :
  let logged_in := fst (ReadLoop 2 auth_server clock 0 0 (fresh login)) in
  User (fst (dispatch auth_server 3 0 logged_in "RSET" EmptyString)) = None
  /\ net_output (fst (dispatch auth_server 3 0 logged_in "RSET" EmptyString))
     = net_output logged_in ++ [("250 OK" +:+ CRLF)%string].
Proof.
  intros logged_in.
  destruct (user_lifecycle auth_server 3 0 logged_in "RSET" EmptyString)
    as (H & _); try reflexivity.
  destruct (H eq_refl) as (_ & H1 & _ & _ & _ & H2). split; [exact H1|exact H2].
Defined.

(** C3: a delivery, then a second MAIL on the same connection. *)
Definition delivery : list string :=
  ["MAIL FROM:<a@example.org>"; "RCPT TO:<r@example.org>"; "DATA";
   "To: r@example.org"; "From: a@example.org"; ""; "hello"; "."].








(** C10: the same headers without a To line. *)
Definition no_to : bytes :=
  lines ["From: Sender <sender@example.com>"; "Content-Type: text/html"; ""; "body"].

Definition no_to_header : MIMEHeader :=
  fst (default (∅, EmptyString) (ptr_of (mail_ReadMessage no_to))).

Lemma NewMessage_needs_To_example :
  NewMessage no_to [] = Err (errorString "mail: header not in message").
Proof.
  assert (Hm : mail_ReadMessage no_to = Ok (no_to_header, "body"%string))
    by (vm_compute; reflexivity).
  assert (Hto : mail_AddressList no_to_header "To"
                = Err (errorString "mail: header not in message"))
    by (vm_compute; reflexivity).
  exact (proj1 (NewMessage_needs_To_and_From no_to [] _ _ _ Hm (or_introl Hto))).
Defined.

(** C5: a multipart message whose only part is invalid base64. *)
Definition bad_base64 : bytes :=
  lines ["To: r@example.org"; "From: a@example.org";
         "Content-Type: multipart/mixed; boundary=b"; "";
         "--b"; "Content-Type: text/plain"; "Content-Transfer-Encoding: base64";
         ""; "!!!!"; "--b--"; ""].

Definition bad_base64_header : MIMEHeader :=
  fst (default (∅, EmptyString) (ptr_of (mail_ReadMessage bad_base64))).
Definition bad_base64_body : bytes :=
  snd (default (∅, EmptyString) (ptr_of (mail_ReadMessage bad_base64))).

Definition bad_base64_part : MIMEHeader :=
  fst (default (∅, bytes_NewBuffer EmptyString)
         (head (fst (multipart_NewReader (bytes_NewBuffer bad_base64_body) "b")))).

Lemma parseContent_drops_leaf_error_example :
  parseContent 1 bad_base64_header (bytes_NewBuffer bad_base64_body) = Ok [None]
  /\ (exists m, NewMessage bad_base64 [] = Ok m /\ Parts 1 m = Ok [None]).
Proof.
  assert (H1 : mime_ParseMediaType (Get bad_base64_header "Content-Type")
               = Ok ("multipart/mixed"%string, {[ "boundary"%string := "b"%string ]}))
    by (vm_compute; reflexivity).
  assert (H2 : multipart_NewReader (bytes_NewBuffer bad_base64_body)
                 (default EmptyString
                    (({[ "boundary"%string := "b"%string ]} : gmap string string)
                       !! "boundary"%string))
               = ([(bad_base64_part, bytes_NewBuffer "!!!!")], io_EOF))
    by (vm_compute; reflexivity).
  assert (H3 : mime_ParseMediaType (Get bad_base64_part "Content-Type")
               = Ok ("text/plain"%string, ∅))
    by (vm_compute; reflexivity).
  assert (H4 : transfer_decode (Get bad_base64_part "Content-Transfer-Encoding")
                               (bytes_NewBuffer "!!!!") = Err Ref.corrupt)
    by (vm_compute; reflexivity).
  destruct (parseContent_drops_leaf_error 0 _ _ _ _ _ _ _ _ _
              H1 eq_refl H2 H3 eq_refl H4) as [_ H].
  split; [exact H|].
  eexists. split; [vm_compute; reflexivity|]. vm_compute. reflexivity.
Defined.







(** C8: a Message-ID header without a value. *)
Definition empty_id : bytes :=
  lines ["To: a@example.org"; "From: b@example.org"; "Message-ID:"; ""; "hello"].

Lemma ID_of_empty_header :
  exists m m',
    NewMessage empty_id [] = Ok m
    /\ Header m !! "Message-Id" = Some [EmptyString]
    /\ ID 100 0 m
       = Ok ("CeQdklWpFFUkxXnichXDFqgfuVWvntdqPVxdZwaBDjwsPyMqKNPXxBXdqbqfEzfp"%string, m')
    /\ "CeQdklWpFFUkxXnichXDFqgfuVWvntdqPVxdZwaBDjwsPyMqKNPXxBXdqbqfEzfp"%string
       <> Get (Header m) "Message-ID".
Proof.
  eexists _, _. split; [vm_compute; reflexivity|].
  split; [vm_compute; reflexivity|].
  split; [vm_compute; reflexivity|]. vm_compute. discriminate.
Qed.

Definition with_id : bytes :=
  lines ["To: a@example.org"; "From: b@example.org";
         "Message-ID: <examplemessage@example.com>"; ""; "hello"].

Definition with_id_message : Message :=
  default (mkMessage [] (mkAddress EmptyString EmptyString) ∅ EmptyString
                     EmptyString EmptyString false [])
          (ptr_of (NewMessage with_id [])).

Lemma ID_memoised_example :
  exists m',
    ID 0 0 with_id_message = Ok ("<examplemessage@example.com>"%string, m')
    /\ forall fuel now, ID fuel now m' = Ok ("<examplemessage@example.com>"%string, m').
Proof.
  eexists. split; [vm_compute; reflexivity|].
  apply (ID_memoised_and_header 0 0 with_id_message).
  vm_compute. reflexivity.
Defined.


End Examples.

(** * Further functions of the package *)

(** [NewError] of errors.go. *)
Definition NewError (code : Z) (message : string) : error :=
  SMTPErrorVal code (errors_New message).

Definition set_Disabled (s : Server) (d : gmap string bool) : Server :=
  mkServer (Server_Name s) (TLSConfig s) (ServerName s) (Server_MaxSize s)
           (MaxCommands s) (Handler s) (Server_Auth s) (Extensions s) d (Help s)
           (Server_ReadTimeout s) (Server_WriteTimeout s).

(** [Server.Disable] and [Server.Enable]. *)
Definition Disable (s : Server) (verbs : list string) : Server :=
  foldl (fun s verb =>
           set_Disabled s (<[strings_ToUpper verb := true]> (Disabled s)))
        s verbs.

Definition Enable (s : Server) (verbs : list string) : Server :=
  foldl (fun s verb =>
           set_Disabled s (<[strings_ToUpper verb := false]> (Disabled s)))
        s verbs.

(** [Server.UseAuth]. *)
Definition UseAuth (s : Server) (auth : Extension) : Server :=
  mkServer (Server_Name s) (TLSConfig s) (ServerName s) (Server_MaxSize s)
           (MaxCommands s) (Handler s) (Some auth) (Extensions s) (Disabled s)
           (Help s) (Server_ReadTimeout s) (Server_WriteTimeout s).


(** [SimpleExtension] of extension.go. *)
Definition SimpleExtension (Handler : Conn -> string -> Conn * option error)
    (Ehlo : string) : Extension :=
  mkExtension Handler Ehlo.

(** * Further properties *)

(** Reduction of the connection updates and projections, and of nothing
    else. *)
Ltac conn_cbn :=
  cbn [Reset WriteEHLO WriteSMTP WriteOK Write set_input set_User set_ToAddr
       set_Errors set_transaction
       net_input net_inputEnd net_output net_LocalAddr net_handshake IsTLS
       Errors User FromAddr ToAddr MaxSize ReadTimeout WriteTimeout transaction
       fst snd] in *.

Section SessionInvariants.
Context `{L : GoLib}.

(** A mechanism that only talks to the client: it may read and write, and
    leaves the session state alone. *)
Definition io_only (f : Conn -> string -> Conn) : Prop :=
  forall c p,
    IsTLS (f c p) = IsTLS c /\ User (f c p) = User c
    /\ FromAddr (f c p) = FromAddr c /\ ToAddr (f c p) = ToAddr c
    /\ transaction (f c p) = transaction c /\ Errors (f c p) = Errors c
    /\ exists written, net_output (f c p) = net_output c ++ written.

(** A server whose verbs are the built-in ones: no extension is
    registered, and the authentication extension, if any, is the package's
    [Auth] over mechanisms that only talk to the client. *)
Definition builtin_only (s : Server) : Prop :=
  Extensions s = ∅
  /\ match Server_Auth s with
     | None => True
     | Some e =>
         exists a, e = Auth_Extension a
                   /\ forall k m, Mechanisms a !! k = Some m ->
                                  io_only (fun c p => fst (Mechanism_Handle m c p))
     end.

(** What one command does to the session state. *)
Inductive effect (s : Server) (now : Z) (c c' : Conn) : Prop :=
| eff_none :
    IsTLS c' = IsTLS c -> User c' = User c -> FromAddr c' = FromAddr c ->
    ToAddr c' = ToAddr c -> transaction c' = transaction c ->
    effect s now c c'
| eff_reset :
    IsTLS c' = IsTLS c -> User c' = None -> FromAddr c' = None ->
    ToAddr c' = [] -> transaction c' = 0 ->
    effect s now c c'
| eff_mail (from : Address) :
    Server_Auth s = None \/ User c <> None ->
    transaction c = 0 ->
    IsTLS c' = IsTLS c -> User c' = User c -> FromAddr c' = Some from ->
    ToAddr c' = ToAddr c -> transaction c' = now ->
    effect s now c c'
| eff_rcpt (to : Address) :
    Server_Auth s = None \/ User c <> None ->
    IsTLS c' = IsTLS c -> User c' = User c -> FromAddr c' = FromAddr c ->
    ToAddr c' = ToAddr c ++ [to] -> transaction c' = transaction c ->
    effect s now c c'
| eff_data :
    Server_Auth s = None \/ User c <> None ->
    transaction c <> 0 ->
    IsTLS c' = IsTLS c -> User c' = User c -> FromAddr c' = FromAddr c ->
    ToAddr c' = ToAddr c -> transaction c' = 0 ->
    effect s now c c'
| eff_starttls :
    IsTLS c' = true -> User c' = User c -> FromAddr c' = None ->
    ToAddr c' = [] -> transaction c' = 0 ->
    effect s now c c'
| eff_auth :
    Server_Auth s <> None -> User c = None ->
    IsTLS c' = IsTLS c -> FromAddr c' = FromAddr c ->
    ToAddr c' = ToAddr c -> transaction c' = transaction c ->
    effect s now c c'.

Lemma handle_MAIL_effect (s : Server) (now : Z) (conn : Conn) (args : string) :
  Server_Auth s = None \/ User conn <> None ->
  effect s now conn (handle_MAIL s now conn args)
  /\ exists written,
       net_output (handle_MAIL s now conn args) = net_output conn ++ written.
Proof.
  intros Hgate. unfold handle_MAIL, StartTX. destruct conn. conn_cbn.
  destruct (GetAddressArg s "FROM" args) as [from| | |];
    try (split; [by apply eff_none|by eexists]).
  destruct (match User0 with Some u => IsUser u (Addr from) | None => true end);
    [|split; [by apply eff_none|by eexists]].
  destruct (transaction0 =? 0) eqn:Htx; cbn [negb]; conn_cbn.
  - apply Z.eqb_eq in Htx. split; [|by eexists].
    by apply (eff_mail _ _ _ _ from).
  - split; [by apply eff_none|by eexists].
Qed.

Lemma handle_RCPT_effect (s : Server) (now : Z) (conn : Conn) (args : string) :
  Server_Auth s = None \/ User conn <> None ->
  effect s now conn (handle_RCPT s conn args)
  /\ exists written,
       net_output (handle_RCPT s conn args) = net_output conn ++ written.
Proof.
  intros Hgate. unfold handle_RCPT. destruct conn. conn_cbn.
  destruct (GetAddressArg s "TO" args) as [to| | |]; conn_cbn;
    try (split; [by apply eff_none|by eexists]).
  split; [by apply (eff_rcpt _ _ _ _ to)|by eexists].
Qed.

Lemma handle_DATA_effect (s : Server) (now : Z) (fuel : nat) (conn : Conn) :
  Server_Auth s = None \/ User conn <> None ->
  effect s now conn (fst (handle_DATA s now fuel conn))
  /\ exists written,
       net_output (fst (handle_DATA s now fuel conn)) = net_output conn ++ written.
Proof.
  intros Hgate. unfold handle_DATA, ReadData, EndTX. destruct conn. conn_cbn.
  destruct (ReadDotLines net_input0 net_inputEnd0 []) as [[rest lines] err].
  conn_cbn. destruct err; [split; [by apply eff_none|by eexists]|].
  destruct (NewMessage _ _) as [message| | |]; conn_cbn;
    try (split; [by apply eff_none|by eexists]).
  - destruct (transaction0 =? 0) eqn:Htx; conn_cbn.
    + split; [by apply eff_none|]. rewrite <- app_assoc. by eexists.
    + apply Z.eqb_neq in Htx.
      destruct (Handler s message) as [err|].
      * destruct (assert_SMTPError err) as [[code e]|]; conn_cbn;
          (split; [by apply eff_data|rewrite <- app_assoc; by eexists]).
      * destruct (ID fuel now message) as [[id m']| | |]; conn_cbn;
          (split; [by apply eff_data|rewrite <- ?app_assoc; by eexists]).
  - split; [by apply eff_none|]. rewrite <- app_assoc. by eexists.
Qed.

Lemma handle_STARTTLS_effect (s : Server) (now : Z) (conn : Conn) :
  effect s now conn (fst (handle_STARTTLS s conn))
  /\ exists written,
       net_output (fst (handle_STARTTLS s conn)) = net_output conn ++ written.
Proof.
  unfold handle_STARTTLS. destruct conn. conn_cbn.
  destruct (tls_Handshake _ _); conn_cbn.
  - split; [by apply eff_none|by eexists].
  - split; [by apply eff_starttls|by eexists].
Qed.

Lemma Auth_Handle_effect (s : Server) (now : Z) (a : Auth) (conn : Conn)
    (args : string) :
  Server_Auth s <> None ->
  User conn = None ->
  (forall k m, Mechanisms a !! k = Some m ->
               io_only (fun c p => fst (Mechanism_Handle m c p))) ->
  effect s now conn (fst (Auth_Handle a conn args))
  /\ (exists written,
        net_output (fst (Auth_Handle a conn args)) = net_output conn ++ written).
Proof.
  intros Hs Hu Hmech. unfold Auth_Handle.
  destruct (Mechanisms a !! _) as [m|] eqn:Hm.
  - destruct (Hmech _ _ Hm conn
                (match strings_SplitN args " " 2 with
                 | [_; a1] => a1
                 | _ => EmptyString
                 end)) as (H1 & H2 & H3 & H4 & H5 & H6 & H7).
    destruct (Mechanism_Handle m conn _) as [c [user [e|]]]; cbn [fst snd] in *.
    + split; [apply eff_none; congruence|exact H7].
    + destruct c. conn_cbn. split; [by apply eff_auth|exact H7].
  - cbn [fst]. split; [by apply eff_none|]. exists []. by rewrite app_nil_r.
Qed.

Lemma handle_AUTH_effect (s : Server) (now : Z) (conn : Conn) (args : string) :
  builtin_only s ->
  effect s now conn (handle_AUTH s conn args)
  /\ exists written,
       net_output (handle_AUTH s conn args) = net_output conn ++ written.
Proof.
  intros [_ Hauth]. unfold handle_AUTH.
  destruct (User conn) as [u|] eqn:Hu.
  { destruct conn. conn_cbn. split; [by apply eff_none|by eexists]. }
  destruct (Server_Auth s) as [e|] eqn:He.
  2:{ destruct conn. conn_cbn. split; [by apply eff_none|by eexists]. }
  destruct Hauth as (a & -> & Hmech). cbn [Handle Auth_Extension].
  destruct (Auth_Handle_effect s now a conn args) as [Heff [w Hw]];
    [congruence|done|done|].
  destruct (Auth_Handle a conn args) as [c1 err]. cbn [fst] in *.
  assert (Hout : forall code msg,
             effect s now conn (WriteSMTP c1 code msg)
             /\ exists written,
                  net_output (WriteSMTP c1 code msg) = net_output conn ++ written).
  { intros code msg. destruct c1. conn_cbn. split.
    - destruct Heff; conn_cbn;
        [by apply eff_none|by apply eff_reset|by apply (eff_mail _ _ _ _ from)
        |by apply (eff_rcpt _ _ _ _ to)|by apply eff_data|by apply eff_starttls
        |by apply eff_auth].
    - rewrite Hw, <- app_assoc. by eexists. }
  destruct err as [err|]; [|apply Hout].
  destruct (assert_ptr_SMTPError err) as [[code e']|]; apply Hout.
Qed.

(** Every command handled by a server of built-in verbs has one of the
    effects above, and only adds to what has been written. *)
Lemma dispatch_effect (s : Server) (now : Z) (fuel : nat) (conn : Conn)
    (verb args : string) :
  builtin_only s ->
  effect s now conn (fst (dispatch s now fuel conn verb args))
  /\ exists written,
       net_output (fst (dispatch s now fuel conn verb args))
       = net_output conn ++ written.
Proof.
  intros Hs. pose proof Hs as [Hext _].
  assert (Hsame : forall code msg,
             effect s now conn (WriteSMTP conn code msg)
             /\ exists written,
                  net_output (WriteSMTP conn code msg) = net_output conn ++ written).
  { intros. destruct conn. conn_cbn. split; [by apply eff_none|by eexists]. }
  unfold dispatch.
  destruct (default false (Disabled s !! verb)).
  { destruct (String.eqb verb "EHLO"); apply Hsame. }
  destruct (bool_decide (Server_Auth s <> None) && bool_decide (User conn = None)
            && negb (verb_in verb _)) eqn:Hgate.
  { destruct (String.eqb verb "*"); apply Hsame. }
  rewrite Hext, lookup_empty.
  assert (Hopen : verb_in verb ["AUTH"; "EHLO"; "HELO"; "NOOP"; "RSET"; "QUIT"; "STARTTLS"]
                  = false ->
                  Server_Auth s = None \/ User conn <> None).
  { intros Hv. rewrite Hv in Hgate. cbn [negb] in Hgate.
    rewrite andb_true_r in Hgate. apply andb_false_iff in Hgate as [H|H].
    - left. apply bool_decide_eq_false in H.
      by destruct (Server_Auth s); [destruct H|].
    - right. by apply bool_decide_eq_false in H. }
  unfold builtin.
  destruct (String.eqb verb "HELO") eqn:E1; [apply Hsame|].
  destruct (String.eqb verb "EHLO") eqn:E2.
  { cbn [fst]. rewrite handle_EHLO_state. conn_cbn.
    split; [by apply eff_reset|by eexists]. }
  destruct (String.eqb verb "MAIL") eqn:E3.
  { apply String.eqb_eq in E3 as ->. apply handle_MAIL_effect. by apply Hopen. }
  destruct (String.eqb verb "RCPT") eqn:E4.
  { apply String.eqb_eq in E4 as ->. apply handle_RCPT_effect. by apply Hopen. }
  destruct (String.eqb verb "DATA") eqn:E5.
  { apply String.eqb_eq in E5 as ->. apply handle_DATA_effect. by apply Hopen. }
  destruct (String.eqb verb "RSET") eqn:E6.
  { destruct conn. conn_cbn. split; [by apply eff_reset|by eexists]. }
  destruct (String.eqb verb "VRFY"); [apply Hsame|].
  destruct (String.eqb verb "EXPN"); [apply Hsame|].
  destruct (String.eqb verb "HELP"); [apply Hsame|].
  destruct (String.eqb verb "NOOP"); [apply Hsame|].
  destruct (String.eqb verb "QUIT"); [apply Hsame|].
  destruct (String.eqb verb "STARTTLS"); [apply handle_STARTTLS_effect|].
  destruct (String.eqb verb "AUTH"); [by apply handle_AUTH_effect|].
  destruct conn. conn_cbn.
  destruct (_ <? _)%nat; conn_cbn;
    (split; [by apply eff_none|rewrite <- ?app_assoc; by eexists]).
Qed.


(** A property of the connection that reading a line keeps and every
    command keeps is kept by the whole read loop. *)
Lemma ReadLoop_invariant (P : Conn -> Prop) (s : Server) (clock : nat -> Z)
    (fuel : nat) :
  (forall c i, P c -> P (set_input c i)) ->
  (forall now c verb args, P c -> P (fst (dispatch s now fuel c verb args))) ->
  forall n i conn, P conn -> P (fst (ReadLoop n s clock i fuel conn)).
Proof.
  intros Hin Hstep. induction n as [|n IH]; intros i conn HP; [exact HP|].
  cbn [ReadLoop]. unfold ReadSMTP, tp_ReadLine.
  destruct (net_input conn) as [|line rest].
  - by destruct (is_io_EOF _ || is_net_timeout _).
  - pose proof (Hstep (clock i) _
                  (strings_ToUpper (nth 0 (strings_SplitN line " " 2) EmptyString))
                  (match strings_SplitN line " " 2 with
                   | _ :: a :: _ => a
                   | _ => EmptyString
                   end) (Hin conn rest HP)) as HP'.
    destruct (dispatch s (clock i) fuel (set_input conn rest) _ _) as [c' ctl].
    cbn [fst] in HP'. destruct ctl; try exact HP'. by apply IH.
Qed.

(** X1. Once a session is on TLS it stays on TLS: no command of a server of
    built-in verbs turns [IsTLS] off, through the whole read loop. *)
Theorem IsTLS_is_kept (s : Server) (clock : nat -> Z) (fuel n i : nat)
    (conn : Conn) :
  builtin_only s ->
  IsTLS conn = true ->
  IsTLS (fst (ReadLoop n s clock i fuel conn)) = true.
Proof.
  intros Hs. apply (ReadLoop_invariant (fun c => IsTLS c = true)).
  - intros c inp Hc. by destruct c.
  - intros now c verb args Hc.
    destruct (dispatch_effect s now fuel c verb args Hs) as [Heff _].
    destruct Heff; congruence.
Qed.

(** X2. On a server that requires authentication, a session without an
    authenticated user never holds a sender, a recipient or an open
    transaction: MAIL, RCPT and DATA have no effect before AUTH, through
    the whole read loop. *)
Theorem no_transaction_before_AUTH (s : Server) (clock : nat -> Z)
    (fuel n i : nat) (conn : Conn) :
  builtin_only s ->
  Server_Auth s <> None ->
  (User conn = None ->
   FromAddr conn = None /\ ToAddr conn = [] /\ transaction conn = 0) ->
  User (fst (ReadLoop n s clock i fuel conn)) = None ->
  FromAddr (fst (ReadLoop n s clock i fuel conn)) = None
  /\ ToAddr (fst (ReadLoop n s clock i fuel conn)) = []
  /\ transaction (fst (ReadLoop n s clock i fuel conn)) = 0.
Proof.
  intros Hs Hauth.
  apply (ReadLoop_invariant
           (fun c => User c = None ->
                     FromAddr c = None /\ ToAddr c = [] /\ transaction c = 0)).
  - intros c inp Hc. by destruct c.
  - intros now c verb args Hc.
    destruct (dispatch_effect s now fuel c verb args Hs) as [Heff _].
    destruct Heff as [H1 H2 H3 H4 H5|H1 H2 H3 H4 H5|from [H0|H0] Ht H1 H2 H3 H4 H5
                     |to [H0|H0] H1 H2 H3 H4 H5|[H0|H0] Ht H1 H2 H3 H4 H5
                     |H1 H2 H3 H4 H5|H0 Hu H1 H3 H4 H5];
      intros Hnone; try done.
    + rewrite H3, H4, H5. apply Hc. congruence.
    + congruence.
    + congruence.
    + congruence.
    + rewrite H3, H4, H5. by apply Hc.
Qed.

(** X3. The transaction marker is set only together with a sender: in every
    state the read loop reaches, an open transaction has a sender. *)
Theorem open_transaction_has_sender (s : Server) (clock : nat -> Z)
    (fuel n i : nat) (conn : Conn) :
  builtin_only s ->
  (transaction conn <> 0 -> FromAddr conn <> None) ->
  transaction (fst (ReadLoop n s clock i fuel conn)) <> 0 ->
  FromAddr (fst (ReadLoop n s clock i fuel conn)) <> None.
Proof.
  intros Hs.
  apply (ReadLoop_invariant
           (fun c => transaction c <> 0 -> FromAddr c <> None)).
  - intros c inp Hc. by destruct c.
  - intros now c verb args Hc.
    destruct (dispatch_effect s now fuel c verb args Hs) as [Heff _].
    destruct Heff as [H1 H2 H3 H4 H5|H1 H2 H3 H4 H5|from H0 Ht H1 H2 H3 H4 H5
                     |to H0 H1 H2 H3 H4 H5|H0 Ht H1 H2 H3 H4 H5
                     |H1 H2 H3 H4 H5|H0 Hu H1 H3 H4 H5];
      intros Htx; try congruence.
    + rewrite H3. apply Hc. congruence.
    + rewrite H3. apply Hc. congruence.
    + rewrite H3. apply Hc. congruence.
Qed.

(** X4. Replies are only ever added: what a session has written stays a
    prefix of its output, and the first line [HandleSMTP] writes on a
    connection is the 220 greeting. *)
Theorem output_is_append_only (s : Server) (stamp : string) (clock : nat -> Z)
    (fuel n i : nat) (conn : Conn) :
  builtin_only s ->
  (exists written,
     net_output (fst (ReadLoop n s clock i fuel conn)) = net_output conn ++ written)
  /\ (exists written,
        net_output (fst (HandleSMTP s stamp clock fuel conn))
        = net_output conn
          ++ smtp_line 220 (Server_Name s +:+ " " +:+ stamp) :: written).
Proof.
  intros Hs.
  assert (Hloop : forall n i c,
             exists written,
               net_output (fst (ReadLoop n s clock i fuel c)) = net_output c ++ written).
  { intros n' i' c.
    apply (ReadLoop_invariant
             (fun c' => exists written, net_output c' = net_output c ++ written)).
    - intros c' inp Hc. by destruct c'.
    - intros now c' verb args [w Hw].
      destruct (dispatch_effect s now fuel c' verb args Hs) as [_ [w' Hw']].
      exists (w ++ w'). by rewrite Hw', Hw, <- app_assoc.
    - exists []. by rewrite app_nil_r. }
  split; [apply Hloop|].
  unfold HandleSMTP.
  destruct (Hloop (Z.to_nat (MaxCommands s)) O
              (WriteSMTP conn 220 (Server_Name s +:+ " " +:+ stamp))) as [w Hw].
  exists w. rewrite Hw. destruct conn. conn_cbn. by rewrite <- app_assoc.
Qed.

End SessionInvariants.

Section SessionEdges.
Context `{L : GoLib}.

Lemma cut_no_sep (sep : ascii) (v a : string) :
  all_bytes (fun c => negb (Ascii.eqb c sep)) v = true ->
  cut sep (v +:+ String sep a) = Some (v, a).
Proof.
  induction v as [|c v IH]; intros Hv.
  - change (cut sep (String sep a) = Some (EmptyString, a)).
    cbn [cut]. by rewrite Ascii.eqb_refl.
  - cbn [all_bytes] in Hv. apply andb_true_iff in Hv as [Hc Hv].
    change (cut sep (String c (v +:+ String sep a)) = Some (String c v, a)).
    cbn [cut]. apply negb_true_iff in Hc. by rewrite Hc, (IH Hv).
Qed.

Lemma cut_none (sep : ascii) (v : string) :
  all_bytes (fun c => negb (Ascii.eqb c sep)) v = true -> cut sep v = None.
Proof.
  induction v as [|c v IH]; intros Hv; [done|].
  cbn [all_bytes] in Hv. apply andb_true_iff in Hv as [Hc Hv].
  cbn [cut]. apply negb_true_iff in Hc. by rewrite Hc, (IH Hv).
Qed.


(** X6. QUIT, when it reaches the built-in dispatch, is answered with
    [221 Bye] and ends the read loop at once: the lines the client sent
    after it are never read. *)
Theorem QUIT_ends_the_session (s : Server) (clock : nat -> Z) (n i fuel : nat)
    (conn : Conn) (line : string) (rest : list string) :
  default false (Disabled s !! "QUIT") = false ->
  Extensions s !! "QUIT" = None ->
  net_input conn = line :: rest ->
  strings_ToUpper (nth 0 (strings_SplitN line " " 2) EmptyString) = "QUIT"%string ->
  ReadLoop (S n) s clock i fuel conn
  = (WriteSMTP (set_input conn rest) 221 "Bye", Ok tt).
Proof.
  intros Hd He Hin Hverb. cbn [ReadLoop]. unfold ReadSMTP, tp_ReadLine.
  rewrite Hin, Hverb. unfold dispatch. rewrite Hd. cbn [verb_in existsb].
  replace (String.eqb "QUIT" "QUIT") with true by reflexivity.
  rewrite !orb_true_r. cbn [negb]. rewrite andb_false_r, He. reflexivity.
Qed.

End SessionEdges.

(** ** The arguments of MAIL and RCPT *)

Section AddressArguments.
Context `{L : GoLib}.

Lemma append_cons (c : ascii) (a b : string) :
  String c a +:+ b = String c (a +:+ b).
Proof. reflexivity. Qed.

Lemma all_bytes_app (p : ascii -> bool) (a b : string) :
  all_bytes p (a +:+ b) = all_bytes p a && all_bytes p b.
Proof.
  induction a as [|c a IH]; [reflexivity|].
  rewrite append_cons. cbn [all_bytes]. by rewrite IH, andb_assoc.
Qed.

Lemma span_spec (p : ascii -> bool) (s : string) :
  s = fst (span p s) +:+ snd (span p s)
  /\ all_bytes p (fst (span p s)) = true.
Proof.
  induction s as [|c s [IH1 IH2]]; [done|].
  cbn [span]. destruct (p c) eqn:Hc; [|done].
  destruct (span p s) as [a b]. cbn [fst snd] in *.
  rewrite append_cons, <- IH1. cbn [all_bytes]. by rewrite Hc, IH2.
Qed.

(** A match of the path pattern at the head of [s]. *)
Lemma pathRegex_at_shape (s m : string) :
  pathRegex_at s = Some m ->
  exists local domain post,
    s = m +:+ post
    /\ m = "<" +:+ local +:+ "@" +:+ domain +:+ ">"
    /\ local <> EmptyString /\ domain <> EmptyString
    /\ all_bytes notAtGt local = true /\ all_bytes notAtGt domain = true.
Proof.
  unfold pathRegex_at. destruct s as [|c r]; [done|].
  destruct (Ascii.eqb c "<") eqn:Hc.
  2:{ intros H. exfalso. revert H.
      destruct c as [[] [] [] [] [] [] [] []]; try done. }
  apply Ascii.eqb_eq in Hc as ->.
  pose proof (span_spec notAtGt r) as [Hr Hl].
  destruct (span notAtGt r) as [local r1]. cbn [fst snd] in *.
  destruct local as [|l0 local]; [done|].
  destruct r1 as [|c1 r2]; [done|].
  destruct (Ascii.eqb c1 "@") eqn:Hc1.
  2:{ intros H. exfalso. revert H.
      destruct c1 as [[] [] [] [] [] [] [] []]; try done;
        destruct (span notAtGt r2) as [[|? ?] [|? ?]]; done. }
  apply Ascii.eqb_eq in Hc1 as ->.
  pose proof (span_spec notAtGt r2) as [Hr2 Hd].
  destruct (span notAtGt r2) as [domain r3]. cbn [fst snd] in *.
  destruct domain as [|d0 domain]; [done|].
  destruct r3 as [|c3 post]; [done|].
  destruct (Ascii.eqb c3 ">") eqn:Hc3.
  2:{ intros H. exfalso. revert H.
      destruct c3 as [[] [] [] [] [] [] [] []]; done. }
  apply Ascii.eqb_eq in Hc3 as ->.
  intros [= <-]. exists (String l0 local), (String d0 domain), post.
  split; [|done]. rewrite Hr, Hr2.
  rewrite <- !string_app_assoc. reflexivity.
Qed.

(** What [pathRegex.FindString] returns, when it is not empty, is a piece
    of its argument of the form [<local@domain>]. *)
Lemma pathRegex_FindString_shape (s : string) :
  pathRegex_FindString s <> EmptyString ->
  exists pre local domain post,
    s = pre +:+ pathRegex_FindString s +:+ post
    /\ pathRegex_FindString s = "<" +:+ local +:+ "@" +:+ domain +:+ ">"
    /\ local <> EmptyString /\ domain <> EmptyString
    /\ all_bytes notAtGt local = true /\ all_bytes notAtGt domain = true.
Proof.
  induction s as [|c s IH].
  - intros H. by destruct H.
  - cbn [pathRegex_FindString].
    destruct (pathRegex_at (String c s)) as [m|] eqn:Hat.
    + intros _. apply pathRegex_at_shape in Hat as (l & d & post & H1 & H2).
      exists EmptyString, l, d, post. split; [exact H1|exact H2].
    + intros Hne. destruct (IH Hne) as (pre & l & d & post & H1 & H2).
      exists (String c pre), l, d, post. split; [|exact H2].
      rewrite append_cons. by rewrite <- H1.
Qed.

Lemma FindString_needs (c : ascii) (s : string) :
  c = "<"%char \/ c = "@"%char \/ c = ">"%char ->
  all_bytes (fun x => negb (Ascii.eqb x c)) s = true ->
  pathRegex_FindString s = EmptyString.
Proof.
  intros Hc Hs.
  destruct (string_dec (pathRegex_FindString s) EmptyString) as [|Hne]; [done|].
  destruct (pathRegex_FindString_shape s Hne)
    as (pre & l & d & post & H1 & H2 & _).
  rewrite H2 in H1. rewrite H1 in Hs.
  rewrite !all_bytes_app in Hs. cbn [all_bytes] in Hs.
  destruct Hc as [-> | [-> | ->]]; cbn in Hs;
    rewrite ?andb_false_r, ?andb_false_l in Hs; discriminate.
Qed.

(** X7. [GetAddressArg] refuses, without calling the address parser, an
    argument without a colon, an argument whose keyword is not the expected
    one (compared without case), and a path that lacks an opening bracket,
    an at sign or a closing bracket: so an unbracketed address and the null
    path [<>] are refused.  The last error names FROM whatever the keyword. *)
Theorem GetAddressArg_rejects (s : Server) (argName keyword path : string) :
  all_bytes (fun c => negb (Ascii.eqb c ":")) keyword = true ->
  GetAddressArg s argName keyword = Err (errorString "Bad arguments")
  /\ (strings_ToUpper keyword <> argName ->
      GetAddressArg s argName (keyword +:+ String ":" path)
      = Err (errorString "Bad arguments"))
  /\ (strings_ToUpper keyword = argName ->
      (exists c, (c = "<"%char \/ c = "@"%char \/ c = ">"%char)
                 /\ all_bytes (fun x => negb (Ascii.eqb x c)) path = true) ->
      GetAddressArg s argName (keyword +:+ String ":" path)
      = Err (errorString ("couldnt find valid FROM path in " +:+ path))).
Proof.
  intros Hk. unfold GetAddressArg. cbn [strings_SplitN].
  rewrite (cut_none _ _ Hk), (cut_no_sep _ _ path Hk).
  split; [done|]. split.
  - intros Hne. apply String.eqb_neq in Hne. by rewrite Hne.
  - intros Heq (c & Hc & Hp). apply String.eqb_eq in Heq. rewrite Heq.
    by rewrite (FindString_needs c path Hc Hp).
Qed.

(** X8. When [GetAddressArg] returns an address, the argument is a keyword
    equal to the expected one up to case, a colon, and a text in which a
    piece [<local@domain>] occurs, with [local] and [domain] non-empty and
    free of at signs and closing brackets; the address is what the address
    parser returns for that piece. *)
Theorem GetAddressArg_accepts (s : Server) (argName args : string) (a : Address) :
  GetAddressArg s argName args = Ok a ->
  exists keyword pre local domain post,
    cut ":" args = Some (keyword, pre +:+ ("<" +:+ local +:+ "@" +:+ domain +:+ ">") +:+ post)
    /\ strings_ToUpper keyword = argName
    /\ local <> EmptyString /\ domain <> EmptyString
    /\ all_bytes notAtGt local = true /\ all_bytes notAtGt domain = true
    /\ mail_ParseAddress ("<" +:+ local +:+ "@" +:+ domain +:+ ">") = Ok a.
Proof.
  unfold GetAddressArg. cbn [strings_SplitN].
  destruct (cut ":" args) as [[keyword path]|]; [|done].
  destruct (String.eqb (strings_ToUpper keyword) argName) eqn:Hk; [|done].
  apply String.eqb_eq in Hk.
  destruct (String.eqb (pathRegex_FindString path) EmptyString) eqn:He; [done|].
  apply String.eqb_neq in He.
  destruct (pathRegex_FindString_shape path He)
    as (pre & l & d & post & H1 & H2 & H3 & H4 & H5 & H6).
  intros Hp. exists keyword, pre, l, d, post.
  rewrite H2 in H1, Hp. rewrite <- H1. done.
Qed.

End AddressArguments.

(** ** DATA and STARTTLS *)

Section DataProperties.
Context `{L : GoLib}.

(** The text of the 354 reply. *)
Definition enter_message : string :=
  "Enter message, ending with " +:+ String "034" "." +:+ String "034" " on a line by itself".

Lemma NewMessage_rcpt (data : bytes) (rcpts : list Address) (m : Message) :
  NewMessage data rcpts = Ok m -> rcpt m = rcpts.
Proof.
  unfold NewMessage.
  destruct (mail_ReadMessage data) as [[h body]| | |]; simpl; try discriminate.
  destruct (mail_AddressList h "To") as [to| | |]; simpl; try discriminate.
  destruct (mail_AddressList h "From") as [[|f fs]| | |]; simpl; try discriminate.
  by intros [= <-].
Qed.

Lemma ReadData_session (conn : Conn) :
  IsTLS (fst (ReadData conn)) = IsTLS conn
  /\ User (fst (ReadData conn)) = User conn
  /\ FromAddr (fst (ReadData conn)) = FromAddr conn
  /\ ToAddr (fst (ReadData conn)) = ToAddr conn
  /\ transaction (fst (ReadData conn)) = transaction conn
  /\ net_output (fst (ReadData conn)) = net_output conn.
Proof.
  unfold ReadData. destruct conn. conn_cbn.
  by destruct (ReadDotLines _ _ _) as [[rest lines] err].
Qed.

(** X9. A DATA whose payload was read but cannot be delivered is answered
    with 554 and the handler is not consulted.  When the payload does not
    parse as a message the transaction stays open, with its sender and
    recipients; when no transaction is open (DATA without MAIL) the payload
    is read and parsed all the same and then refused. *)
Theorem DATA_refused (s : Server) (now : Z) (fuel : nat) (conn : Conn)
    (data : string) :
  snd (ReadData (WriteSMTP conn 354 enter_message)) = (data, None) ->
  (forall e,
     NewMessage data (ToAddr conn) = Err e ->
     handle_DATA s now fuel conn
     = (WriteSMTP (fst (ReadData (WriteSMTP conn 354 enter_message))) 554
                  ("Error: I blame you. " +:+ Error e), Continue)
     /\ transaction (fst (handle_DATA s now fuel conn)) = transaction conn
     /\ FromAddr (fst (handle_DATA s now fuel conn)) = FromAddr conn
     /\ ToAddr (fst (handle_DATA s now fuel conn)) = ToAddr conn)
  /\ (forall m,
        NewMessage data (ToAddr conn) = Ok m ->
        transaction conn = 0 ->
        handle_DATA s now fuel conn
        = (WriteSMTP (fst (ReadData (WriteSMTP conn 354 enter_message))) 554
                     "Error: I blame you. <nil>", Continue)).
Proof.
  intros Hread.
  pose proof (ReadData_session (WriteSMTP conn 354 enter_message))
    as (_ & _ & Hf & Ht & Htx & _).
  unfold handle_DATA. fold enter_message.
  destruct (ReadData (WriteSMTP conn 354 enter_message)) as [c1 [d err]].
  cbn [fst snd] in *. injection Hread as -> ->.
  assert (Hto : ToAddr c1 = ToAddr conn) by (rewrite Ht; by destruct conn).
  rewrite Hto. split.
  - intros e He. rewrite He. cbn [fst]. split; [reflexivity|].
    destruct c1, conn. conn_cbn. by subst.
  - intros m Hm Hz. rewrite Hm. unfold EndTX.
    assert (Hz1 : transaction c1 = 0) by (rewrite Htx; by destruct conn).
    by rewrite Hz1.
Qed.

(** X10. The handler contract of DATA.  In an open transaction, once the
    payload is read and parsed, the message handed to the handler carries
    the recipients of the session; the transaction is closed whatever the
    handler answers, while the sender and the recipients stay recorded; a
    coded error made with [NewError] is relayed with its code and text, any
    other error gives 554, and success gives 250 with the identifier of the
    message. *)
Theorem DATA_handler_contract (s : Server) (now : Z) (fuel : nat) (conn : Conn)
    (data : string) (m : Message) :
  snd (ReadData (WriteSMTP conn 354 enter_message)) = (data, None) ->
  NewMessage data (ToAddr conn) = Ok m ->
  transaction conn <> 0 ->
  rcpt m = ToAddr conn
  /\ transaction (fst (handle_DATA s now fuel conn)) = 0
  /\ FromAddr (fst (handle_DATA s now fuel conn)) = FromAddr conn
  /\ ToAddr (fst (handle_DATA s now fuel conn)) = ToAddr conn
  /\ (forall code text,
        Handler s m = Some (NewError code text) ->
        handle_DATA s now fuel conn
        = (WriteSMTP (set_transaction
                        (fst (ReadData (WriteSMTP conn 354 enter_message))) 0)
                     code text, Continue))
  /\ (forall e,
        Handler s m = Some e -> assert_SMTPError e = None ->
        handle_DATA s now fuel conn
        = (WriteSMTP (set_transaction
                        (fst (ReadData (WriteSMTP conn 354 enter_message))) 0)
                     554 ("Error: I blame me. " +:+ Error e), Continue))
  /\ (forall id m',
        Handler s m = None -> ID fuel now m = Ok (id, m') ->
        handle_DATA s now fuel conn
        = (WriteSMTP (set_transaction
                        (fst (ReadData (WriteSMTP conn 354 enter_message))) 0)
                     250 ("OK : queued as " +:+ id), Continue)).
Proof.
  intros Hread Hm Htx.
  pose proof (ReadData_session (WriteSMTP conn 354 enter_message))
    as (_ & _ & Hf & Ht & Htx1 & _).
  split; [by apply NewMessage_rcpt in Hm|].
  unfold handle_DATA. fold enter_message.
  destruct (ReadData (WriteSMTP conn 354 enter_message)) as [c1 [d err]].
  cbn [fst snd] in *. injection Hread as -> ->.
  assert (Hto : ToAddr c1 = ToAddr conn) by (rewrite Ht; by destruct conn).
  assert (Hfr : FromAddr c1 = FromAddr conn) by (rewrite Hf; by destruct conn).
  assert (Hnz : (transaction c1 =? 0) = false).
  { apply Z.eqb_neq. rewrite Htx1. by destruct conn. }
  rewrite Hto, Hm. unfold EndTX. rewrite Hnz.
  repeat split.
  - destruct (Handler s m) as [e|].
    + destruct (assert_SMTPError e) as [[code e']|]; by destruct c1.
    + destruct (ID fuel now m) as [[id m']| | |]; by destruct c1.
  - rewrite <- Hfr. destruct (Handler s m) as [e|].
    + destruct (assert_SMTPError e) as [[code e']|]; by destruct c1.
    + destruct (ID fuel now m) as [[id m']| | |]; by destruct c1.
  - rewrite <- Hto. destruct (Handler s m) as [e|].
    + destruct (assert_SMTPError e) as [[code e']|]; by destruct c1.
    + destruct (ID fuel now m) as [[id m']| | |]; by destruct c1.
  - intros code text ->. reflexivity.
  - intros e -> ->. reflexivity.
  - intros id m' -> ->. reflexivity.
Qed.

(** X11. STARTTLS with a TLS configuration answers [220 Ready to start TLS]
    before anything else.  When the handshake succeeds the session goes on
    over TLS with the user, the error list and the size limit it had, the
    timeouts of the server, and no sender, recipient or transaction; when
    it fails the session ends. *)
Theorem STARTTLS_upgrade (s : Server) (conn : Conn) (config : tls_Config) :
  TLSConfig s = Some config ->
  (net_handshake conn = None ->
   exists conn',
     handle_STARTTLS s conn = (conn', Continue)
     /\ IsTLS conn' = true /\ User conn' = User conn /\ Errors conn' = Errors conn
     /\ MaxSize conn' = MaxSize conn
     /\ ReadTimeout conn' = Server_ReadTimeout s
     /\ WriteTimeout conn' = Server_WriteTimeout s
     /\ FromAddr conn' = None /\ ToAddr conn' = [] /\ transaction conn' = 0
     /\ net_input conn' = net_input conn
     /\ net_output conn' = net_output conn ++ [smtp_line 220 "Ready to start TLS"])
  /\ (forall e,
        net_handshake conn = Some e ->
        handle_STARTTLS s conn = (WriteSMTP conn 220 "Ready to start TLS", Break)).
Proof.
  intros Hcfg. unfold handle_STARTTLS, tls_Handshake. rewrite Hcfg.
  destruct conn. conn_cbn. split.
  - intros ->. eexists. split; [reflexivity|]. conn_cbn. repeat split.
  - intros e ->. reflexivity.
Qed.

End DataProperties.

(** ** The authentication framework and the extensions *)

Section AuthProperties.
Context `{L : GoLib}.

Lemma ascii_upper_idem (c : ascii) : ascii_upper (ascii_upper c) = ascii_upper c.
Proof. destruct c as [[] [] [] [] [] [] [] []]; reflexivity. Qed.

Lemma strings_ToUpper_idem (s : string) :
  strings_ToUpper (strings_ToUpper s) = strings_ToUpper s.
Proof.
  unfold strings_ToUpper. induction s as [|c s IH]; [reflexivity|].
  cbn [string_map]. by rewrite ascii_upper_idem, IH.
Qed.

(** X12. Mechanisms are registered and looked up without case.  After
    [Auth.Extend] has accepted a mechanism, an AUTH whose first word is its
    name in any case runs it, on the rest of the arguments, and sets the
    user exactly when it returns no error; registering the name again, in
    any case, fails and changes nothing; the other mechanisms are as they
    were. *)
Theorem Auth_Extend_then_Handle (a a' : Auth) (name : string)
    (extension : AuthExtension) (conn : Conn) (args : string) :
  Auth_Extend a name extension = (a', None) ->
  strings_ToUpper (nth 0 (strings_SplitN args " " 2) EmptyString)
  = strings_ToUpper name ->
  Auth_Handle a' conn args
  = (let '(c, (user, err)) :=
       Mechanism_Handle extension conn
         (match strings_SplitN args " " 2 with
          | [_; a1] => a1
          | _ => EmptyString
          end) in
     match err with
     | None => (set_User c user, None)
     | Some e => (c, Some e)
     end)
  /\ (forall name' extension',
        strings_ToUpper name' = strings_ToUpper name ->
        fst (Auth_Extend a' name' extension') = a'
        /\ snd (Auth_Extend a' name' extension') <> None)
  /\ (forall k, k <> strings_ToUpper name ->
                Mechanisms a' !! k = Mechanisms a !! k).
Proof.
  unfold Auth_Extend.
  destruct (Mechanisms a !! strings_ToUpper name) eqn:Hfree; [done|].
  intros [= <-] Hargs. cbn [Mechanisms]. split; [|split].
  - unfold Auth_Handle. cbn [Mechanisms]. by rewrite Hargs, lookup_insert_eq.
  - intros name' ext' ->. by rewrite lookup_insert_eq.
  - intros k Hk. by rewrite lookup_insert_ne.
Qed.


(** X14. The coded errors of the package ([ErrAuthFailed], [ErrRequiresTLS],
    [ErrAuthCancelled], and any [NewError]) are [SMTPError] values, and the
    AUTH case relays the code of a pointer only: whichever of them a
    mechanism returns, the client is sent [500 Authentication failed] and
    the user stays unset. *)
Theorem AUTH_coded_errors_become_500 (s : Server) (conn c1 : Conn) (a : Auth)
    (args : string) (code : Z) (text : string) :
  Server_Auth s = Some (Auth_Extension a) ->
  User conn = None ->
  Auth_Handle a conn args = (c1, Some (NewError code text)) ->
  handle_AUTH s conn args = WriteSMTP c1 500 "Authentication failed"
  /\ ErrAuthFailed = NewError 535 "Authentication credentials invalid"
  /\ ErrRequiresTLS
     = NewError 538 "Encryption required for requested authentication mechanism"
  /\ ErrAuthCancelled = NewError 501 "Cancelled".
Proof.
  intros Hs Hu Hh. unfold handle_AUTH. rewrite Hu, Hs.
  cbn [Handle Auth_Extension]. by rewrite Hh.
Qed.

(** X15. [Server.Extend] accepts one extension per verb, and a registered
    verb goes to its extension before the built-in switch, built-in verbs
    included, once the verb is enabled and the authentication gate is
    passed; registering the verb again fails and changes nothing. *)
Theorem Extend_takes_precedence (s s' : Server) (verb : string)
    (extension : Extension) (now : Z) (fuel : nat) (conn : Conn) (args : string) :
  Extend s verb extension = (s', None) ->
  default false (Disabled s !! verb) = false ->
  Server_Auth s = None \/ User conn <> None ->
  dispatch s' now fuel conn verb args = (fst (Handle extension conn args), Continue)
  /\ (forall extension',
        fst (Extend s' verb extension') = s'
        /\ snd (Extend s' verb extension') <> None).
Proof.
  unfold Extend. destruct (Extensions s !! verb) eqn:Hfree; [done|].
  intros [= <-] Hd Hgate. split.
  - unfold dispatch. cbn [Disabled Server_Auth Extensions]. rewrite Hd.
    replace (bool_decide (Server_Auth s <> None) && bool_decide (User conn = None))
      with false.
    + cbn [andb]. by rewrite lookup_insert_eq.
    + destruct Hgate as [->|Hu].
      * by rewrite bool_decide_eq_false_2 by auto.
      * by rewrite (bool_decide_eq_false_2 (User conn = None)), andb_false_r.
  - intros ext'. cbn [Extensions]. by rewrite lookup_insert_eq.
Qed.

(** X16. [Server.Extend] keeps the verb as it is given, while the verbs the
    loop reads are in upper case: an extension registered under a verb with
    a lower-case letter is never found by the dispatch of a command read
    from the client. *)
Theorem Extend_does_not_normalise (s s' : Server) (verb : string)
    (extension : Extension) (conn conn' : Conn) (read args : string) :
  Extend s verb extension = (s', None) ->
  strings_ToUpper verb <> verb ->
  ReadSMTP conn = (conn', Ok (read, args)) ->
  strings_ToUpper read = read
  /\ Extensions s' !! read = Extensions s !! read.
Proof.
  unfold Extend. destruct (Extensions s !! verb) eqn:Hfree; [done|].
  intros [= <-] Hlow. unfold ReadSMTP, tp_ReadLine.
  destruct (net_input conn) as [|line rest]; [done|].
  intros [= _ <- _].
  split; [apply strings_ToUpper_idem|].
  cbn [Extensions]. apply lookup_insert_ne. intros ->.
  apply Hlow, strings_ToUpper_idem.
Qed.

End AuthProperties.

(** ** The PLAIN mechanism *)

Section PlainProperties.
Context `{L : GoLib}.

Definition NUL : ascii := Ascii.zero.

Definition no_NUL (s : string) : bool :=
  all_bytes (fun c => negb (Ascii.eqb c NUL)) s.

(** X17. [AuthPlain.unpack] takes the decoded response apart at its first
    two NUL bytes: the authorization identity before the first is dropped,
    the user name is what stands between them and the password is all the
    rest, NUL bytes included; a response that does not decode gives the
    decoder's error, and one with fewer than two NUL bytes is malformed. *)
Theorem AuthPlain_unpack_fields (line : string) (authzid username password : string) :
  no_NUL authzid = true ->
  no_NUL username = true ->
  (base64_StdEncoding_Decode line
   = Ok (authzid +:+ String NUL (username +:+ String NUL password)) ->
   AuthPlain_unpack line = Ok (username, password))
  /\ (base64_StdEncoding_Decode line = Ok (authzid +:+ String NUL username) ->
      AuthPlain_unpack line = Err (errorString "Malformed auth string"))
  /\ (base64_StdEncoding_Decode line = Ok authzid ->
      AuthPlain_unpack line = Err (errorString "Malformed auth string"))
  /\ (forall e, base64_StdEncoding_Decode line = Err e ->
                AuthPlain_unpack line = Err e).
Proof.
  intros Hz Hu. unfold AuthPlain_unpack, no_NUL, NUL in *. repeat split.
  - intros ->. cbn [mbind res_bind strings_SplitN].
    rewrite (cut_no_sep _ _ _ Hz). cbn [strings_SplitN].
    by rewrite (cut_no_sep _ _ _ Hu).
  - intros ->. cbn [mbind res_bind strings_SplitN].
    rewrite (cut_no_sep _ _ _ Hz). cbn [strings_SplitN].
    by rewrite (cut_none _ _ Hu).
  - intros ->. cbn [mbind res_bind strings_SplitN].
    by rewrite (cut_none _ _ Hz).
  - by intros e ->.
Qed.


(** X19. Over TLS, an AUTH PLAIN without a response asks for it with an
    empty [334] line and reads exactly one line.  Here a response that does
    not unpack makes the mechanism return the decoder's own error, not
    [ErrAuthFailed]; a refused credential gives [ErrAuthFailed]; and when
    the client sends nothing the read error is returned. *)
Theorem AuthPlain_continuation (f : SimpleAuthFunc) (conn : Conn) (params : string) :
  IsTLS conn = true ->
  strings_TrimSpace params = EmptyString ->
  (forall line rest,
     net_input conn = line :: rest ->
     fst (AuthPlain_Handle f conn params)
     = set_input (WriteSMTP conn 334 EmptyString) rest
     /\ (forall username password user ok,
           AuthPlain_unpack line = Ok (username, password) ->
           f username password = (user, ok) ->
           snd (AuthPlain_Handle f conn params)
           = if ok then (user, None) else (None, Some ErrAuthFailed))
     /\ (forall e,
           AuthPlain_unpack line = Err e ->
           snd (AuthPlain_Handle f conn params) = (None, Some e)))
  /\ (net_input conn = [] ->
      AuthPlain_Handle f conn params
      = (WriteSMTP conn 334 EmptyString, (None, Some (net_inputEnd conn)))).
Proof.
  intros Htls Hp. unfold AuthPlain_Handle. rewrite Htls, Hp. cbn [negb String.eqb].
  unfold ReadLine, tp_ReadLine. split.
  - intros line rest Hin.
    assert (Hin' : net_input (WriteSMTP conn 334 EmptyString) = line :: rest)
      by (rewrite <- Hin; by destruct conn).
    rewrite Hin'. repeat split.
    + destruct (AuthPlain_unpack line) as [[u p]| | |]; try done.
      by destruct (f u p) as [user []].
    + intros u p user ok -> ->. by destruct ok.
    + by intros e ->.
  - intros Hin.
    assert (Hin' : net_input (WriteSMTP conn 334 EmptyString) = [])
      by (rewrite <- Hin; by destruct conn).
    rewrite Hin'. by destruct conn.
Qed.

(** The PLAIN mechanism only talks to the client. *)
Lemma AuthPlain_io_only (f : SimpleAuthFunc) :
  io_only (fun c p => fst (Mechanism_Handle (AuthPlain f) c p)).
Proof.
  intros c p. cbn [Mechanism_Handle AuthPlain]. unfold AuthPlain_Handle.
  destruct (negb (IsTLS c)).
  { repeat split. exists []. by rewrite app_nil_r. }
  destruct (String.eqb _ _).
  - unfold ReadLine, tp_ReadLine. destruct c. conn_cbn.
    destruct net_input0 as [|line rest]; conn_cbn.
    { repeat split. by eexists. }
    destruct (AuthPlain_unpack line) as [[u pw]| | |]; conn_cbn;
      try (repeat split; by eexists).
    destruct (f u pw) as [user []]; conn_cbn; repeat split; by eexists.
  - destruct (AuthPlain_unpack p) as [[u pw]| | |];
      try (repeat split; exists []; by rewrite app_nil_r).
    destruct (f u pw) as [user []]; repeat split; exists []; by rewrite app_nil_r.
Qed.

End PlainProperties.

(** ** The MIME tree *)

Section TreeProperties.
Context `{L : GoLib}.

(** Whether a header block announces a multipart media type. *)
Definition is_multipart (h : MIMEHeader) : bool :=
  match mime_ParseMediaType (Get h "Content-Type") with
  | Ok (mediaType, _) => strings_HasPrefix mediaType "multipart/"
  | _ => false
  end.

(** X20. A header block without a media type is read as one leaf, decoded
    by its transfer encoding like any other leaf; any other failure to
    parse the Content-Type fails the parse with a "Media Type error". *)
Theorem parseContent_without_media_type (fuel : nat) (header : MIMEHeader)
    (content : Reader) (e : error) :
  mime_ParseMediaType (Get header "Content-Type") = Err e ->
  (Error e = "mime: no media type"%string ->
   parseContent (S fuel) header content
   = (b ← transfer_decode (Get header "Content-Transfer-Encoding") content;
      Ok [Some (mkPart header b [])]))
  /\ (Error e <> "mime: no media type"%string ->
      parseContent (S fuel) header content
      = Err (errorString ("Media Type error: " +:+ Error e))).
Proof.
  intros He. cbn [parseContent]. rewrite He. split.
  - intros Hno. apply String.eqb_eq in Hno. rewrite Hno.
    cbn [mbind res_bind]. replace (strings_HasPrefix _ _) with false by reflexivity.
    rewrite readToPart_decodes. by destruct (transfer_decode _ _).
  - intros Hne. apply String.eqb_neq in Hne. by rewrite Hne.
Qed.


(** To depth [d], the parts without a multipart media type have no
    children. *)
Fixpoint leaves_childless (d : nat) (p : Part) : Prop :=
  match d with
  | O => True
  | S d' =>
      (is_multipart (Part_Header p) = false -> Children p = [])
      /\ forall c, Some c ∈ Children p -> leaves_childless d' c
  end.

Lemma readToPart_leaf (header : MIMEHeader) (content : Reader) (p : Part) :
  readToPart header content = Ok p -> Part_Header p = header /\ Children p = [].
Proof.
  rewrite readToPart_decodes.
  destruct (transfer_decode _ _); cbn [mbind res_bind]; try done.
  by intros [= <-].
Qed.

Lemma parseContent_loop_childless (d : nat)
    (rec : MIMEHeader -> Reader -> res (list (option Part)))
    (ps : list (MIMEHeader * Reader)) (fin : error)
    (acc parts : list (option Part)) :
  (forall h r sub, rec h r = Ok sub ->
                   forall c, Some c ∈ sub -> leaves_childless d c) ->
  (forall p, Some p ∈ acc -> leaves_childless (S d) p) ->
  parseContent_loop rec ps fin acc = Ok parts ->
  forall p, Some p ∈ parts -> leaves_childless (S d) p.
Proof.
  intros Hrec. revert acc.
  induction ps as [|[h r] ps IH]; intros acc Hacc; cbn [parseContent_loop].
  - destruct (is_io_EOF fin); [|done]. by intros [= <-].
  - destruct (mime_ParseMediaType (Get h "Content-Type")) as [[t prm]| | |] eqn:Ht;
      try done.
    destruct (strings_HasPrefix t "multipart/") eqn:Hmulti.
    + destruct (readToPart h r) as [pt| | |] eqn:Hpt; cbn [ptr_of]; try done.
      destruct (rec h (bytes_NewBuffer (Body pt))) as [sub| | |] eqn:Hsub;
        cbn [mbind res_bind]; try done.
      apply IH. intros p Hp. apply elem_of_app in Hp as [Hp|Hp]; [by apply Hacc|].
      apply list_elem_of_singleton in Hp. injection Hp as ->.
      apply readToPart_leaf in Hpt as [Hh _].
      cbn [leaves_childless Part_Header Children]. split.
      * unfold is_multipart. rewrite Hh, Ht, Hmulti. done.
      * intros c Hc. by apply (Hrec _ _ _ Hsub).
    + apply IH. intros p Hp. apply elem_of_app in Hp as [Hp|Hp]; [by apply Hacc|].
      apply list_elem_of_singleton in Hp.
      destruct (readToPart h r) as [pt| | |] eqn:Hpt; cbn [ptr_of] in Hp; try done.
      injection Hp as ->. apply readToPart_leaf in Hpt as [_ Hc].
      cbn [leaves_childless]. rewrite Hc. split; [done|].
      intros c Hin. by apply elem_of_nil in Hin.
Qed.

(** X22. In every tree that [parseContent] returns, and to any depth, a
    part whose media type is not multipart is a leaf: it has no children. *)
Theorem parseContent_leaves_are_childless (d fuel : nat) (header : MIMEHeader)
    (content : Reader) (parts : list (option Part)) :
  parseContent fuel header content = Ok parts ->
  forall p, Some p ∈ parts -> leaves_childless d p.
Proof.
  revert fuel header content parts.
  induction d as [|d IHd]; [done|].
  induction fuel as [|fuel IHf]; intros header content parts; [done|].
  cbn [parseContent].
  destruct (match mime_ParseMediaType (Get header "Content-Type") with
            | Err e => _
            | r => r
            end) as [[t prm]| | |]; cbn [mbind res_bind]; try done.
  destruct (strings_HasPrefix t "multipart/").
  - destruct (multipart_NewReader content _) as [ps fin].
    apply (parseContent_loop_childless d (parseContent fuel) ps fin []).
    + intros h r sub Hsub c Hc. by apply (IHd fuel h r sub).
    + intros p Hp. by apply elem_of_nil in Hp.
  - destruct (readToPart header content) as [pt| | |] eqn:Hpt;
      cbn [mbind res_bind]; try done.
    intros [= <-] p Hp. apply list_elem_of_singleton in Hp. injection Hp as ->.
    apply readToPart_leaf in Hpt as [_ Hc].
    cbn [leaves_childless]. rewrite Hc. split; [done|].
    intros c Hin. by apply elem_of_nil in Hin.
Qed.

Definition part_is_multipart (p : Part) : bool := is_multipart (Part_Header p).

Lemma Attachments_loop_filter (ps : list Part) (acc : list (option Part)) :
  Forall (fun p => exists t,
            mime_ParseMediaType (Get (Part_Header p) "Content-Type") = Ok t) ps ->
  Attachments_loop (Some <$> ps) acc
  = Ok (acc ++ (Some <$> filter (fun p => part_is_multipart p = false) ps)).
Proof.
  intros Hps. revert acc.
  induction Hps as [|p ps [[t prm] Ht] _ IH]; intros acc.
  - cbn. by rewrite app_nil_r.
  - cbn [fmap list_fmap Attachments_loop]. rewrite Ht. cbn [mbind res_bind fst].
    destruct (strings_HasPrefix t "multipart/") eqn:Hm.
    + rewrite IH, filter_cons_False; [done|].
      unfold part_is_multipart, is_multipart. rewrite Ht, Hm. done.
    + rewrite IH, filter_cons_True.
      * by rewrite <- app_assoc.
      * unfold part_is_multipart, is_multipart. by rewrite Ht, Hm.
Qed.

(** X23. [Attachments] looks at a multipart/mixed message only: for any
    other top-level type it returns no attachment, even when the parts
    parse; for multipart/mixed it returns, in order, the top-level parts
    whose media type is not multipart. *)
Theorem Attachments_of_mixed_only (fuel : nat) (m : Message) (mediaType : string)
    (params : gmap string string) (ps : list Part) :
  mime_ParseMediaType (Get (Header m) "Content-Type") = Ok (mediaType, params) ->
  Parts fuel m = Ok (Some <$> ps) ->
  (mediaType <> "multipart/mixed"%string -> Attachments fuel m = Ok [])
  /\ (mediaType = "multipart/mixed"%string ->
      Forall (fun p => exists t,
                mime_ParseMediaType (Get (Part_Header p) "Content-Type") = Ok t) ps ->
      Attachments fuel m
      = Ok (Some <$> filter (fun p => part_is_multipart p = false) ps)).
Proof.
  intros Hmt Hp. unfold Attachments. rewrite Hmt, Hp. cbn [mbind res_bind fst].
  split.
  - intros Hne. apply String.eqb_neq in Hne. by rewrite Hne.
  - intros -> Hps. replace (String.eqb _ _) with true by reflexivity.
    by rewrite Attachments_loop_filter.
Qed.

End TreeProperties.

(** ** The generated message identifier *)

Section TokenProperties.
Context `{L : GoLib}.

Definition is_letter (c : ascii) : bool :=
  existsb (Ascii.eqb c) (list_ascii_of_string letterBytes).

Lemma string_index_letter (idx : Z) :
  0 <= idx < Z.of_nat (String.length letterBytes) ->
  is_letter (string_index letterBytes idx) = true.
Proof.
  intros Hidx.
  assert (Hall : forallb (fun k => is_letter (string_index letterBytes (Z.of_nat k)))
                         (seq 0 (String.length letterBytes)) = true)
    by (vm_compute; reflexivity).
  rewrite forallb_forall in Hall.
  rewrite <- (Z2Nat.id idx) by lia. apply Hall, in_seq. lia.
Qed.

(** The positions of [b] after [i] hold letters. *)
Definition filled (i : Z) (b : list ascii) : Prop :=
  forall j c, (Z.to_nat (i + 1) <= j)%nat -> b !! j = Some c -> is_letter c = true.

Lemma genID_loop_filled fuel src k i cache remain b b' :
  -1 <= i < Z.of_nat (length b) ->
  filled i b ->
  genID_loop fuel src k i cache remain b = Some b' -> filled (-1) b'.
Proof.
  revert k i cache remain b.
  induction fuel as [|fuel IH]; intros k i cache remain b Hi Hf; cbn [genID_loop].
  - destruct (i <? 0) eqn:Hneg; [|discriminate].
    apply Z.ltb_lt in Hneg. assert (i = -1) as -> by lia. by intros [= <-].
  - destruct (i <? 0) eqn:Hneg.
    { apply Z.ltb_lt in Hneg. assert (i = -1) as -> by lia. by intros [= <-]. }
    apply Z.ltb_ge in Hneg.
    assert (Hstep : forall cache0,
              filled (i - 1) (<[Z.to_nat i := string_index letterBytes
                                                (Z.land cache0 letterIdxMask)]> b)
              \/ ~ (Z.land cache0 letterIdxMask <? Z.of_nat (String.length letterBytes)) = true).
    { intros cache0.
      destruct (Z.land cache0 letterIdxMask <? Z.of_nat (String.length letterBytes))
        eqn:Hlt; [left|by right].
      apply Z.ltb_lt in Hlt.
      assert (0 <= Z.land cache0 letterIdxMask)
        by (apply Z.land_nonneg; right; by vm_compute).
      intros j c Hj Hc.
      destruct (decide (j = Z.to_nat i)) as [->|Hne].
      - rewrite list_lookup_insert_eq in Hc by lia. injection Hc as <-.
        by apply string_index_letter.
      - rewrite list_lookup_insert_ne in Hc by done.
        apply (Hf j c); [lia|done]. }
    destruct (remain =? 0); cbv zeta iota beta;
      match goal with
      | |- context [if Z.land ?c0 _ <? _ then _ else _] =>
          destruct (Hstep c0) as [Hs|Hs];
          destruct (Z.land c0 letterIdxMask <? Z.of_nat (String.length letterBytes))
      end; try done;
      first [ apply IH; [rewrite ?length_insert; lia|done]
            | apply IH; [lia|done] ].
Qed.

(** X24. A generated identifier is made of 64 ASCII letters, whatever the
    random source returns. *)
Theorem generated_ID_is_64_letters (fuel : nat) (now : Z) (m m' : Message)
    (id : string) :
  genMessageID m = false ->
  Get (Header m) "Message-ID" = EmptyString ->
  ID fuel now m = Ok (id, m') ->
  String.length id = 64%nat /\ all_bytes is_letter id = true.
Proof.
  intros Hg Hh. unfold ID. rewrite Hg, Hh. cbn [String.eqb negb].
  destruct (genID fuel now) as [s|] eqn:Hs; [|discriminate].
  intros [= <- _]. split; [by apply (genID_length fuel now)|].
  unfold genID in Hs.
  destruct (genID_loop _ _ _ _ _ _ _) as [b|] eqn:Hb; [|discriminate].
  injection Hs as <-.
  apply genID_loop_filled in Hb.
  - clear -Hb.
    assert (Hall : forall c, c ∈ b -> is_letter c = true).
    { intros c Hc. apply list_elem_of_lookup in Hc as [j Hj].
      apply (Hb j c); [simpl; lia|done]. }
    clear Hb. induction b as [|c b IH]; [done|].
    cbn [string_of_list_ascii all_bytes]. rewrite Hall by left.
    apply IH. intros c' Hc'. apply Hall. by right.
  - rewrite length_replicate. vm_compute. split; [discriminate|done].
  - intros j c Hj Hc. apply lookup_replicate in Hc as [_ Hlt].
    change (Z.to_nat (idEntropy - 1 + 1)) with 64%nat in Hj.
    change (Z.to_nat idEntropy) with 64%nat in Hlt. lia.
Qed.

End TokenProperties.

(** ** Reading the message data *)

Section DotLines.

(** What a client does to a line of the message before sending it: a line
    that starts with a dot gets one more. *)
Definition dot_stuff (line : string) : string :=
  match line with
  | String "." _ => String "." line
  | _ => line
  end.

Lemma ReadDotLines_stuffed (body rest : list string) (e : error)
    (lines : list string) :
  ReadDotLines (map dot_stuff body ++ "."%string :: rest) e lines
  = (rest, lines ++ body, None).
Proof.
  revert lines. induction body as [|line body IH]; intros lines.
  - cbn. by rewrite app_nil_r.
  - cbn [map app]. unfold dot_stuff at 1.
    assert (Hnext : ReadDotLines (map dot_stuff body ++ "."%string :: rest) e
                                 (lines ++ [line])
                    = (rest, lines ++ line :: body, None)).
    { rewrite IH. by rewrite <- app_assoc. }
    destruct line as [|c line]; [exact Hnext|].
    destruct c as [[] [] [] [] [] [] [] []]; exact Hnext.
Qed.

Lemma ReadDotLines_unterminated (body : list string) (e : error)
    (lines : list string) :
  ReadDotLines (map dot_stuff body) e lines
  = ([], lines ++ body,
     Some (if is_io_EOF e then io_ErrUnexpectedEOF else e)).
Proof.
  revert lines. induction body as [|line body IH]; intros lines.
  - cbn. by rewrite app_nil_r.
  - cbn [map]. unfold dot_stuff at 1.
    assert (Hnext : ReadDotLines (map dot_stuff body) e (lines ++ [line])
                    = ([], lines ++ line :: body,
                       Some (if is_io_EOF e then io_ErrUnexpectedEOF else e))).
    { rewrite IH. by rewrite <- app_assoc. }
    destruct line as [|c line]; [exact Hnext|].
    destruct c as [[] [] [] [] [] [] [] []]; exact Hnext.
Qed.

(** X25. [ReadData] undoes the dot-stuffing: of the lines a client sends
    for a message and closes with a single dot it returns the message's
    own lines, joined by line feeds, and leaves what follows the dot unread.
    When the input ends before the closing dot it returns what it read
    with an error, [io.ErrUnexpectedEOF] for a closed connection. *)
Theorem ReadData_unstuffs (conn : Conn) (body rest : list string) :
  (net_input conn = map dot_stuff body ++ "."%string :: rest ->
   ReadData conn
   = (set_input conn rest, (strings_Join body (String "010" EmptyString), None)))
  /\ (net_input conn = map dot_stuff body ->
      ReadData conn
      = (set_input conn [],
         (strings_Join body (String "010" EmptyString),
          Some (if is_io_EOF (net_inputEnd conn) then io_ErrUnexpectedEOF
                else net_inputEnd conn)))).
Proof.
  unfold ReadData. split; intros ->.
  - by rewrite ReadDotLines_stuffed.
  - by rewrite ReadDotLines_unterminated.
Qed.

End DotLines.

(** ** Configuring the server *)

Section Configuration.
Context `{L : GoLib}.

Lemma Disable_fields (s : Server) (verbs : list string) :
  Disable s verbs = set_Disabled s (Disabled (Disable s verbs)).
Proof.
  unfold Disable. revert s.
  induction verbs as [|v verbs IH]; intros s; cbn [foldl]; [by destruct s|].
  rewrite IH. by destruct s.
Qed.

Lemma Enable_fields (s : Server) (verbs : list string) :
  Enable s verbs = set_Disabled s (Disabled (Enable s verbs)).
Proof.
  unfold Enable. revert s.
  induction verbs as [|v verbs IH]; intros s; cbn [foldl]; [by destruct s|].
  rewrite IH. by destruct s.
Qed.

Lemma Disable_lookup (s : Server) (verbs : list string) (k : string) :
  Disabled (Disable s verbs) !! k
  = if bool_decide (k ∈ strings_ToUpper <$> verbs) then Some true
    else Disabled s !! k.
Proof.
  unfold Disable. revert s.
  induction verbs as [|v verbs IH]; intros s; cbn [foldl fmap list_fmap].
  - rewrite bool_decide_eq_false_2; [done|]. apply not_elem_of_nil.
  - rewrite IH. destruct s as [n t sn ms mc h a ex d hp rt wt].
    cbn [set_Disabled Disabled].
    destruct (decide (k ∈ strings_ToUpper <$> verbs)) as [Hin|Hin].
    + rewrite !bool_decide_eq_true_2; [done| |done]. by right.
    + rewrite (bool_decide_eq_false_2 _ Hin).
      destruct (decide (k = strings_ToUpper v)) as [->|Hne].
      * rewrite lookup_insert_eq, bool_decide_eq_true_2; [done|]. by left.
      * rewrite lookup_insert_ne by done.
        rewrite bool_decide_eq_false_2; [done|].
        intros Hk. apply elem_of_cons in Hk as [Hk|Hk]; done.
Qed.

Lemma Enable_lookup (s : Server) (verbs : list string) (k : string) :
  Disabled (Enable s verbs) !! k
  = if bool_decide (k ∈ strings_ToUpper <$> verbs) then Some false
    else Disabled s !! k.
Proof.
  unfold Enable. revert s.
  induction verbs as [|v verbs IH]; intros s; cbn [foldl fmap list_fmap].
  - rewrite bool_decide_eq_false_2; [done|]. apply not_elem_of_nil.
  - rewrite IH. destruct s as [n t sn ms mc h a ex d hp rt wt].
    cbn [set_Disabled Disabled].
    destruct (decide (k ∈ strings_ToUpper <$> verbs)) as [Hin|Hin].
    + rewrite !bool_decide_eq_true_2; [done| |done]. by right.
    + rewrite (bool_decide_eq_false_2 _ Hin).
      destruct (decide (k = strings_ToUpper v)) as [->|Hne].
      * rewrite lookup_insert_eq, bool_decide_eq_true_2; [done|]. by left.
      * rewrite lookup_insert_ne by done.
        rewrite bool_decide_eq_false_2; [done|].
        intros Hk. apply elem_of_cons in Hk as [Hk|Hk]; done.
Qed.

(** The read loop consults the table of disabled verbs through the
    verb's entry alone. *)
Lemma dispatch_Disabled (s : Server) (d : gmap string bool) (now : Z)
    (fuel : nat) (conn : Conn) (verb args : string) :
  default false (d !! verb) = default false (Disabled s !! verb) ->
  dispatch (set_Disabled s d) now fuel conn verb args
  = dispatch s now fuel conn verb args.
Proof.
  intros Hd. destruct s as [n t sn ms mc h a ex d0 hp rt wt].
  unfold dispatch. cbn [set_Disabled Disabled Server_Auth Extensions] in *.
  rewrite Hd. reflexivity.
Qed.

(** X26. A disabled verb is refused before anything else is looked at:
    whoever the client is and whatever extension or built-in command
    carries the name, the reply is 502, or 550 for EHLO.  The names are
    upper-cased when they are disabled, as the verbs of the commands are. *)
Theorem Disable_refuses (s : Server) (verbs : list string) (verb : string)
    (now : Z) (fuel : nat) (conn : Conn) (args : string) :
  verb ∈ verbs ->
  dispatch (Disable s verbs) now fuel conn (strings_ToUpper verb) args
  = (WriteSMTP conn (if String.eqb (strings_ToUpper verb) "EHLO" then 550 else 502)
               (if String.eqb (strings_ToUpper verb) "EHLO" then "Not implemented"
                else "Command not implemented"),
     Continue).
Proof.
  intros Hin. unfold dispatch. rewrite Disable_lookup.
  rewrite bool_decide_eq_true_2 by (by apply list_elem_of_fmap_2).
  cbn [default]. by destruct (String.eqb _ "EHLO").
Qed.

(** X27. [Enable] undoes [Disable]: a server on which verbs that were not
    disabled are disabled and then enabled again answers every command as
    it did before. *)
Theorem Enable_undoes_Disable (s : Server) (verbs : list string) (now : Z)
    (fuel : nat) (conn : Conn) (verb args : string) :
  (forall v, v ∈ verbs -> default false (Disabled s !! strings_ToUpper v) = false) ->
  dispatch (Enable (Disable s verbs) verbs) now fuel conn verb args
  = dispatch s now fuel conn verb args.
Proof.
  intros Hfree.
  assert (Hagree : default false (Disabled (Enable (Disable s verbs) verbs) !! verb)
                   = default false (Disabled s !! verb)).
  { rewrite Enable_lookup, Disable_lookup.
    destruct (decide (verb ∈ strings_ToUpper <$> verbs)) as [Hin|Hin].
    - rewrite bool_decide_eq_true_2 by done. cbn [default].
      apply list_elem_of_fmap in Hin as [v [-> Hv]]. symmetry. by apply Hfree.
    - by rewrite !bool_decide_eq_false_2. }
  pose proof (Enable_fields (Disable s verbs) verbs) as H1.
  pose proof (Disable_fields s verbs) as H2.
  revert Hagree H1. generalize (Enable (Disable s verbs) verbs). intros E Hagree H1.
  revert H2 H1. generalize (Disable s verbs). intros D H2 H1.
  rewrite H2 in H1. rewrite H1.
  exact (dispatch_Disabled s (Disabled E) now fuel conn verb args Hagree).
Qed.

End Configuration.

(** ** The count of unrecognised commands *)

Section ErrorCount.
Context `{L : GoLib}.

Lemma handle_MAIL_Errors (s : Server) (now : Z) (conn : Conn) (args : string) :
  Errors (handle_MAIL s now conn args) = Errors conn.
Proof.
  unfold handle_MAIL, StartTX. destruct conn. conn_cbn.
  destruct (GetAddressArg s "FROM" args) as [from| | |]; try done.
  destruct (match User0 with Some u => IsUser u (Addr from) | None => true end);
    [|done].
  by destruct (transaction0 =? 0).
Qed.

Lemma handle_RCPT_Errors (s : Server) (conn : Conn) (args : string) :
  Errors (handle_RCPT s conn args) = Errors conn.
Proof.
  unfold handle_RCPT. destruct conn. conn_cbn.
  by destruct (GetAddressArg s "TO" args).
Qed.

Lemma handle_DATA_Errors (s : Server) (now : Z) (fuel : nat) (conn : Conn) :
  Errors (fst (handle_DATA s now fuel conn)) = Errors conn.
Proof.
  unfold handle_DATA, ReadData, EndTX. destruct conn. conn_cbn.
  destruct (ReadDotLines net_input0 net_inputEnd0 []) as [[rest lines] err].
  conn_cbn. destruct err; [done|].
  destruct (NewMessage _ _) as [message| | |]; conn_cbn; try done.
  destruct (transaction0 =? 0); conn_cbn; [done|].
  destruct (Handler s message) as [err|].
  - by destruct (assert_SMTPError err) as [[code e]|].
  - by destruct (ID fuel now message) as [[id m']| | |].
Qed.

Lemma handle_STARTTLS_Errors (s : Server) (conn : Conn) :
  Errors (fst (handle_STARTTLS s conn)) = Errors conn.
Proof.
  unfold handle_STARTTLS. destruct conn. conn_cbn.
  by destruct (tls_Handshake _ _).
Qed.

Lemma handle_AUTH_Errors (s : Server) (conn : Conn) (args : string) :
  builtin_only s -> Errors (handle_AUTH s conn args) = Errors conn.
Proof.
  intros [_ Hauth]. unfold handle_AUTH.
  destruct (User conn) as [u|] eqn:Hu; [by destruct conn|].
  destruct (Server_Auth s) as [e|] eqn:He; [|by destruct conn].
  destruct Hauth as (a & -> & Hmech). cbn [Handle Auth_Extension].
  assert (Hc : Errors (fst (Auth_Handle a conn args)) = Errors conn).
  { unfold Auth_Handle.
    destruct (Mechanisms a !! _) as [m|] eqn:Hm; [|done].
    destruct (Hmech _ _ Hm conn
                (match strings_SplitN args " " 2 with
                 | [_; a1] => a1
                 | _ => EmptyString
                 end)) as (_ & _ & _ & _ & _ & H6 & _).
    destruct (Mechanism_Handle m conn _) as [c [user [e|]]]; cbn [fst snd] in *;
      [done|]. by destruct c. }
  destruct (Auth_Handle a conn args) as [c1 err]. cbn [fst] in Hc.
  assert (Hout : forall code msg, Errors (WriteSMTP c1 code msg) = Errors conn).
  { intros code msg. by destruct c1. }
  destruct err as [err|]; [|apply Hout].
  destruct (assert_ptr_SMTPError err) as [[code e']|]; apply Hout.
Qed.

(** A command either leaves the list of errors alone or adds one to it,
    and the one that makes it longer than three ends the session. *)
Lemma dispatch_Errors (s : Server) (now : Z) (fuel : nat) (conn : Conn)
    (verb args : string) :
  builtin_only s ->
  Errors (fst (dispatch s now fuel conn verb args)) = Errors conn
  \/ exists e,
       Errors (fst (dispatch s now fuel conn verb args)) = Errors conn ++ [e]
       /\ ((3 < length (Errors conn ++ [e]))%nat ->
           snd (dispatch s now fuel conn verb args) = Break).
Proof.
  intros Hs. pose proof Hs as [Hext _].
  assert (Hsame : forall code msg, Errors (WriteSMTP conn code msg) = Errors conn).
  { intros. by destruct conn. }
  unfold dispatch.
  destruct (default false (Disabled s !! verb)).
  { left. destruct (String.eqb verb "EHLO"); apply Hsame. }
  destruct (bool_decide (Server_Auth s <> None) && bool_decide (User conn = None)
            && negb (verb_in verb _)).
  { left. destruct (String.eqb verb "*"); apply Hsame. }
  rewrite Hext, lookup_empty. unfold builtin.
  destruct (String.eqb verb "HELO"); [left; apply Hsame|].
  destruct (String.eqb verb "EHLO").
  { left. cbn [fst]. by rewrite handle_EHLO_state. }
  destruct (String.eqb verb "MAIL"); [left; apply handle_MAIL_Errors|].
  destruct (String.eqb verb "RCPT"); [left; apply handle_RCPT_Errors|].
  destruct (String.eqb verb "DATA"); [left; apply handle_DATA_Errors|].
  destruct (String.eqb verb "RSET"); [left; by destruct conn|].
  destruct (String.eqb verb "VRFY"); [left; apply Hsame|].
  destruct (String.eqb verb "EXPN"); [left; apply Hsame|].
  destruct (String.eqb verb "HELP"); [left; apply Hsame|].
  destruct (String.eqb verb "NOOP"); [left; by destruct conn|].
  destruct (String.eqb verb "QUIT"); [left; apply Hsame|].
  destruct (String.eqb verb "STARTTLS"); [left; apply handle_STARTTLS_Errors|].
  destruct (String.eqb verb "AUTH"); [left; by apply handle_AUTH_Errors|].
  right. exists (errorString ("bad input: " +:+ verb +:+ " " +:+ args)).
  destruct conn. conn_cbn.
  destruct (3 <? length (Errors0 ++ _))%nat eqn:Hlen; conn_cbn.
  - done.
  - split; [done|]. intros Hgt. apply Nat.ltb_ge in Hlen. lia.
Qed.

(** X28. A session tolerates three unrecognised commands: through the
    whole read loop the list of errors only grows, nothing takes an error
    off it, neither RSET nor EHLO nor STARTTLS, and it never holds more
    than four, the fourth ending the session. *)
Theorem unrecognised_commands_are_bounded (s : Server) (clock : nat -> Z)
    (fuel n i : nat) (conn : Conn) :
  builtin_only s ->
  (length (Errors conn) <= 3)%nat ->
  (exists more,
     Errors (fst (ReadLoop n s clock i fuel conn)) = Errors conn ++ more)
  /\ (length (Errors (fst (ReadLoop n s clock i fuel conn))) <= 4)%nat.
Proof.
  intros Hs. revert i conn.
  induction n as [|n IH]; intros i conn Hlen.
  { cbn [ReadLoop fst]. split; [exists []; by rewrite app_nil_r|lia]. }
  cbn [ReadLoop]. unfold ReadSMTP, tp_ReadLine.
  destruct (net_input conn) as [|line rest].
  { destruct (is_io_EOF _ || is_net_timeout _); cbn [fst];
      (split; [exists []; by rewrite app_nil_r|lia]). }
  assert (Hin : Errors (set_input conn rest) = Errors conn) by (by destruct conn).
  pose proof (dispatch_Errors s (clock i) fuel (set_input conn rest)
                (strings_ToUpper (nth 0 (strings_SplitN line " " 2) EmptyString))
                (match strings_SplitN line " " 2 with
                 | _ :: a :: _ => a
                 | _ => EmptyString
                 end) Hs) as Hstep.
  destruct (dispatch s (clock i) fuel (set_input conn rest) _ _) as [c' ctl].
  cbn [fst snd] in Hstep. rewrite Hin in Hstep.
  destruct Hstep as [Hsame|[e [Hadd Hend]]].
  - assert (Hhere : (exists more, Errors c' = Errors conn ++ more)
                    /\ (length (Errors c') <= 4)%nat).
    { rewrite Hsame. split; [exists []; by rewrite app_nil_r|lia]. }
    destruct ctl; cbn [fst]; try exact Hhere.
    rewrite <- Hsame. apply IH. by rewrite Hsame.
  - assert (Hhere : (exists more, Errors c' = Errors conn ++ more)
                    /\ (length (Errors c') <= 4)%nat).
    { rewrite Hadd. split; [by eexists|]. rewrite length_app. simpl. lia. }
    destruct ctl; cbn [fst]; try exact Hhere.
    destruct (IH (S i) c') as [[more Hmore] Hbound].
    + destruct (decide (3 < length (Errors conn ++ [e]))%nat) as [Hgt|Hle].
      * by specialize (Hend Hgt).
      * rewrite Hadd. lia.
    + split; [|exact Hbound].
      exists ([e] ++ more). by rewrite Hmore, Hadd, <- app_assoc.
Qed.

End ErrorCount.

(** ** The HELP message *)

Section HelpMessage.
Context `{L : GoLib}.


End HelpMessage.

(** * Further examples *)

Module MoreExamples.
Import Ref Examples.

(** A connection over TLS whose peer sends [input] and then closes. *)
Definition secure (input : list string) : Conn :=
  mkConn input io_EOF [] "127.0.0.1:2525" None
         true [] None None [] 131072 10 10 0.

Lemma open_server_builtin : builtin_only open_server.
Proof. split; [reflexivity|exact I]. Qed.

Lemma auth_server_builtin : builtin_only auth_server.
Proof.
  split; [reflexivity|]. exists plain_auth. split; [reflexivity|].
  intros k m Hm.
  assert (Hp : Mechanisms plain_auth
               = <["PLAIN"%string := AuthPlain check_alice]> ∅) by reflexivity.
  rewrite Hp in Hm. apply lookup_insert_Some in Hm as [[_ <-]|[_ Hm]].
  - apply AuthPlain_io_only.
  - by rewrite lookup_empty in Hm.
Qed.

(** X1 *)
Lemma IsTLS_is_kept_example :
  IsTLS (fst (ReadLoop 3 auth_server clock 0 0
                (secure ["EHLO client.example.org"; "RSET"; "QUIT"]))) = true.
Proof.
  apply (IsTLS_is_kept auth_server clock 0 3 0
           (secure ["EHLO client.example.org"; "RSET"; "QUIT"])).
  - exact auth_server_builtin.
  - reflexivity.
Defined.

(** X2 *)
Lemma no_transaction_before_AUTH_example :
  let conn := fst (ReadLoop 2 auth_server clock 0 0
                     (fresh ["MAIL FROM:<a@example.org>"; "RCPT TO:<r@example.org>"])) in
  FromAddr conn = None /\ ToAddr conn = [] /\ transaction conn = 0.
Proof.
  apply (no_transaction_before_AUTH auth_server clock 0 2 0
           (fresh ["MAIL FROM:<a@example.org>"; "RCPT TO:<r@example.org>"])).
  - exact auth_server_builtin.
  - discriminate.
  - intros _. repeat split.
  - vm_compute. reflexivity.
Defined.

(** X3 *)
Lemma open_transaction_has_sender_example :
  FromAddr (fst (ReadLoop 1 open_server clock 0 0 (fresh delivery))) <> None.
Proof.
  apply (open_transaction_has_sender open_server clock 0 1 0 (fresh delivery)).
  - exact open_server_builtin.
  - intros H. by destruct H.
  - vm_compute. discriminate.
Defined.

(** X4 *)
Lemma output_is_append_only_example :
  exists written,
    net_output (fst (HandleSMTP open_server "Sat, 31 Oct 2026 12:00:00 +0000" clock 0
                       (fresh ["NOOP"; "QUIT"])))
    = smtp_line 220 "mx.example.org Sat, 31 Oct 2026 12:00:00 +0000" :: written.
Proof.
  exact (proj2 (output_is_append_only open_server "Sat, 31 Oct 2026 12:00:00 +0000"
                  clock 0 0 0 (fresh ["NOOP"; "QUIT"]) open_server_builtin)).
Defined.


(** X6 *)
Lemma QUIT_ends_the_session_example :
  ReadLoop 6 open_server clock 0 0 (fresh ["quit"; "MAIL FROM:<a@example.org>"])
  = (WriteSMTP (fresh ["MAIL FROM:<a@example.org>"]) 221 "Bye", Ok tt).
Proof.
  apply (QUIT_ends_the_session open_server clock 5 0 0
           (fresh ["quit"; "MAIL FROM:<a@example.org>"]) "quit"
           ["MAIL FROM:<a@example.org>"%string]); reflexivity.
Defined.

(** X7 *)
Lemma GetAddressArg_rejects_example :
  GetAddressArg open_server "FROM" "FROM:a@example.org"
  = Err (errorString "couldnt find valid FROM path in a@example.org").
Proof.
  apply (proj2 (proj2 (GetAddressArg_rejects open_server "FROM" "FROM"
                         "a@example.org" eq_refl))).
  - reflexivity.
  - exists "<"%char. split; [by left|reflexivity].
Defined.

(** X8 *)
Lemma GetAddressArg_accepts_example :
  exists keyword pre local domain post,
    cut ":" "from:<a@example.org> SIZE=10"
    = Some (keyword, pre +:+ ("<" +:+ local +:+ "@" +:+ domain +:+ ">") +:+ post)
    /\ strings_ToUpper keyword = "FROM"%string
    /\ local <> EmptyString /\ domain <> EmptyString
    /\ all_bytes notAtGt local = true /\ all_bytes notAtGt domain = true
    /\ mail_ParseAddress ("<" +:+ local +:+ "@" +:+ domain +:+ ">")
       = Ok (mkAddress EmptyString "a@example.org").
Proof.
  apply (GetAddressArg_accepts open_server "FROM"
           "from:<a@example.org> SIZE=10" (mkAddress EmptyString "a@example.org")).
  vm_compute. reflexivity.
Defined.

(** X9 *)
Lemma DATA_refused_example :
  net_output (fst (handle_DATA open_server 1 0
                     (fresh ["From: a@example.org"; ""; "hello"; "."; "QUIT"])))
  = [smtp_line 354 enter_message;
     smtp_line 554 "Error: I blame you. mail: header not in message"]
  /\ net_input (fst (handle_DATA open_server 1 0
                       (fresh ["From: a@example.org"; ""; "hello"; "."; "QUIT"])))
     = ["QUIT"%string].
Proof.
  destruct (DATA_refused open_server 1 0
              (fresh ["From: a@example.org"; ""; "hello"; "."; "QUIT"])
              (lines ["From: a@example.org"; ""; "hello"])) as [H _].
  - vm_compute. reflexivity.
  - destruct (H (errorString "mail: header not in message")) as [H1 _].
    + vm_compute. reflexivity.
    + rewrite H1. split; reflexivity.
Defined.

(** X10 *)
Definition payload : list string :=
  ["To: r@example.org"; "From: a@example.org"; ""; "hello"; "."].

Definition at_DATA : Conn :=
  mkConn payload io_EOF [] "127.0.0.1:2525" None false []
         None (Some (mkAddress EmptyString "a@example.org"))
         [mkAddress EmptyString "r@example.org"] 131072 10 10 1700000000.

Definition payload_message : Message :=
  default (mkMessage [] (mkAddress EmptyString EmptyString) ∅ EmptyString
                     EmptyString EmptyString false [])
          (ptr_of (NewMessage (lines ["To: r@example.org"; "From: a@example.org"; ""; "hello"])
                              (ToAddr at_DATA))).

Lemma DATA_handler_contract_example :
  rcpt payload_message = [mkAddress EmptyString "r@example.org"]
  /\ transaction (fst (handle_DATA open_server 1700000002 200 at_DATA)) = 0
  /\ FromAddr (fst (handle_DATA open_server 1700000002 200 at_DATA))
     = Some (mkAddress EmptyString "a@example.org").
Proof.
  destruct (DATA_handler_contract open_server 1700000002 200 at_DATA
              (lines ["To: r@example.org"; "From: a@example.org"; ""; "hello"])
              payload_message) as (H1 & H2 & H3 & _).
  - vm_compute. reflexivity.
  - vm_compute. reflexivity.
  - discriminate.
  - split; [exact H1|]. split; [exact H2|exact H3].
Defined.

(** X11 *)
Lemma STARTTLS_upgrade_example :
  exists conn',
    handle_STARTTLS auth_server (fresh ["EHLO client.example.org"]) = (conn', Continue)
    /\ IsTLS conn' = true
    /\ net_input conn' = ["EHLO client.example.org"%string]
    /\ net_output conn' = [smtp_line 220 "Ready to start TLS"].
Proof.
  destruct (proj1 (STARTTLS_upgrade auth_server (fresh ["EHLO client.example.org"])
                     (mk_tls_Config "mx.example.org") eq_refl) eq_refl)
    as (conn' & H1 & H2 & _ & _ & _ & _ & _ & _ & _ & _ & H3 & H4).
  exists conn'. split; [exact H1|]. split; [exact H2|]. split; [exact H3|exact H4].
Defined.

(** X12 *)
Lemma Auth_Extend_then_Handle_example :
  Auth_Handle plain_auth (secure []) "Plain AGFsaWNlAHNlY3JldA=="
  = (set_User (secure []) (Some alice), None).
Proof.
  destruct (Auth_Extend_then_Handle NewAuth plain_auth "plain" (AuthPlain check_alice)
              (secure []) "Plain AGFsaWNlAHNlY3JldA==") as [H _].
  - reflexivity.
  - reflexivity.
  - rewrite H. vm_compute. reflexivity.
Defined.


(** X14 *)
Lemma AUTH_coded_errors_become_500_example :
  handle_AUTH auth_server (secure []) "PLAIN AGFsaWNlAHdyb25n"
  = WriteSMTP (secure []) 500 "Authentication failed".
Proof.
  apply (AUTH_coded_errors_become_500 auth_server (secure []) (secure []) plain_auth
           "PLAIN AGFsaWNlAHdyb25n" 535 "Authentication credentials invalid").
  - reflexivity.
  - reflexivity.
  - vm_compute. reflexivity.
Defined.

(** X15 *)
Definition pong : Extension :=
  SimpleExtension (fun c _ => (WriteSMTP c 250 "pong", None)) "NOOP".

Lemma Extend_takes_precedence_example :
  dispatch (fst (Extend open_server "NOOP" pong)) 1 0 (fresh []) "NOOP" EmptyString
  = (WriteSMTP (fresh []) 250 "pong", Continue).
Proof.
  apply (Extend_takes_precedence open_server (fst (Extend open_server "NOOP" pong))
           "NOOP" pong 1 0 (fresh []) EmptyString).
  - reflexivity.
  - reflexivity.
  - by left.
Defined.

(** X16 *)
Lemma Extend_does_not_normalise_example :
  Extensions (fst (Extend open_server "xclient" pong)) !! "XCLIENT"%string
  = Extensions open_server !! "XCLIENT"%string.
Proof.
  apply (Extend_does_not_normalise open_server (fst (Extend open_server "xclient" pong))
           "xclient" pong (fresh ["xclient a"]) (fresh []) "XCLIENT" "a").
  - reflexivity.
  - discriminate.
  - reflexivity.
Defined.

(** X17 *)
Lemma AuthPlain_unpack_fields_example :
  AuthPlain_unpack "AGFsaWNlAHNlY3JldA==" = Ok ("alice"%string, "secret"%string).
Proof.
  apply (proj1 (AuthPlain_unpack_fields "AGFsaWNlAHNlY3JldA==" EmptyString "alice"
                  "secret" eq_refl eq_refl)).
  vm_compute. reflexivity.
Defined.


(** X19 *)
Lemma AuthPlain_continuation_example :
  fst (AuthPlain_Handle check_alice (secure ["AGFsaWNlAHNlY3JldA=="; "NOOP"]) EmptyString)
  = set_input (WriteSMTP (secure ["AGFsaWNlAHNlY3JldA=="; "NOOP"]) 334 EmptyString)
              ["NOOP"%string].
Proof.
  destruct (AuthPlain_continuation check_alice
              (secure ["AGFsaWNlAHNlY3JldA=="; "NOOP"]) EmptyString eq_refl eq_refl)
    as [H _].
  exact (proj1 (H "AGFsaWNlAHNlY3JldA=="%string ["NOOP"%string] eq_refl)).
Defined.

(** X20 *)
Lemma parseContent_without_media_type_example :
  parseContent 1 ∅ (bytes_NewBuffer "hello")
  = Ok [Some (mkPart ∅ "hello" [])].
Proof.
  destruct (parseContent_without_media_type 0 ∅ (bytes_NewBuffer "hello")
              (errorString "mime: no media type")) as [H _].
  - vm_compute. reflexivity.
  - exact (H eq_refl).
Defined.



(** A multipart/mixed message with two alternatives and an attachment. *)
Definition with_attachment : bytes :=
  lines ["To: r@example.org"; "From: a@example.org";
         "Content-Type: multipart/mixed; boundary=b"; "";
         "--b"; "Content-Type: multipart/alternative; boundary=c"; "";
         "--c"; "Content-Type: text/plain"; ""; "hello";
         "--c"; "Content-Type: text/html"; ""; "<p>hello</p>"; "--c--"; "";
         "--b"; "Content-Type: application/pdf";
         "Content-Transfer-Encoding: base64"; ""; "aGVsbG8="; "--b--"; ""].

Definition with_attachment_message : Message :=
  default (mkMessage [] (mkAddress EmptyString EmptyString) ∅ EmptyString
                     EmptyString EmptyString false [])
          (ptr_of (NewMessage with_attachment [])).

Definition with_attachment_parts : list Part :=
  the_parts (default [] (ptr_of (Parts 3 with_attachment_message))).

(** X22 *)
Lemma parseContent_leaves_are_childless_example :
  Forall (leaves_childless 3) with_attachment_parts.
Proof.
  apply Forall_forall. intros p Hp.
  apply (parseContent_leaves_are_childless 3 3 (Header with_attachment_message)
           (bytes_NewBuffer (RawBody with_attachment_message))
           (Some <$> with_attachment_parts)).
  - vm_compute. reflexivity.
  - by apply list_elem_of_fmap_2.
Defined.

(** X23 *)
Lemma Attachments_of_mixed_only_example :
  exists pdf,
    Attachments 3 with_attachment_message = Ok [Some pdf]
    /\ Body pdf = "hello"%string
    /\ Get (Part_Header pdf) "Content-Type" = "application/pdf"%string.
Proof.
  destruct (Attachments_of_mixed_only 3 with_attachment_message "multipart/mixed"
              {[ "boundary"%string := "b"%string ]} with_attachment_parts)
    as [_ H].
  - vm_compute. reflexivity.
  - vm_compute. reflexivity.
  - eexists. rewrite H.
    + split; [vm_compute; reflexivity|]. split; vm_compute; reflexivity.
    + reflexivity.
    + repeat constructor; eexists; vm_compute; reflexivity.
Defined.

(** X24 *)
Definition with_attachment_id : string :=
  fst (default (EmptyString, with_attachment_message)
               (ptr_of (ID 200 7 with_attachment_message))).

Lemma generated_ID_is_64_letters_example :
  String.length with_attachment_id = 64%nat
  /\ all_bytes is_letter with_attachment_id = true.
Proof.
  apply (generated_ID_is_64_letters 200 7 with_attachment_message
           (snd (default (EmptyString, with_attachment_message)
                         (ptr_of (ID 200 7 with_attachment_message))))
           with_attachment_id).
  - reflexivity.
  - vm_compute. reflexivity.
  - vm_compute. reflexivity.
Defined.

(** X26 *)
Lemma Disable_refuses_example :
  dispatch (Disable open_server ["vrfy"; "ehlo"]) 1 0 (fresh []) "VRFY" "postmaster"
  = (WriteSMTP (fresh []) 502 "Command not implemented", Continue).
Proof.
  apply (Disable_refuses open_server ["vrfy"; "ehlo"]%string "vrfy" 1 0 (fresh [])
           "postmaster").
  by left.
Defined.

(** X27 *)
Lemma Enable_undoes_Disable_example :
  dispatch (Enable (Disable open_server ["vrfy"]) ["vrfy"]) 1 0 (fresh [])
           "VRFY" "postmaster"
  = dispatch open_server 1 0 (fresh []) "VRFY" "postmaster".
Proof.
  apply (Enable_undoes_Disable open_server ["vrfy"]%string 1 0 (fresh [])
           "VRFY" "postmaster").
  intros v _. reflexivity.
Defined.

(** X28 *)
Lemma unrecognised_commands_are_bounded_example :
  (length (Errors (fst (ReadLoop 6 open_server clock 0 0
                          (fresh ["FOO"; "BAR"; "RSET"; "BAZ"; "QUX"; "NOOP"]))))
   <= 4)%nat.
Proof.
  apply (unrecognised_commands_are_bounded open_server clock 0 6 0
           (fresh ["FOO"; "BAR"; "RSET"; "BAZ"; "QUX"; "NOOP"])).
  - exact open_server_builtin.
  - simpl. lia.
Defined.


End MoreExamples.

(** * The CRAM-MD5 mechanism *)

(** The functions of the standard library that [AuthCramMd5] calls beyond
    those of [GoLib]. *)
Class GoCrypto : Type := {
  base64_StdEncoding_EncodeToString : bytes -> string;
  (** [strconv.FormatInt(i, base)]. *)
  strconv_FormatInt : Z -> Z -> string;
  (** [hmac.New(md5.New, key)], one [Write] and [Sum(nil)]. *)
  hmac_md5_Sum : bytes -> bytes -> bytes;
  (** [fmt.Sprintf] of a byte slice with the verb x. *)
  fmt_hex : bytes -> string
}.



Section WithGoCrypto.
Context `{L : GoLib} `{K : GoCrypto}.





End WithGoCrypto.

(** ** A reference instance of the functions of CRAM-MD5 *)

Module RefCrypto.

Definition byte_of (c : ascii) : Z := Z.of_N (N_of_ascii c).
Definition ascii_of_byte (z : Z) : ascii := ascii_of_N (Z.to_N z).
Definition bytes_Z (s : bytes) : list Z := map byte_of (list_ascii_of_string s).
Definition Z_bytes (l : list Z) : bytes := string_of_list_ascii (map ascii_of_byte l).

Definition digits36 : string := "0123456789abcdefghijklmnopqrstuvwxyz".

Fixpoint format_digits (fuel : nat) (n base : Z) (acc : string) : string :=
  match fuel with
  | O => acc
  | S fuel' =>
      let acc := String (string_index digits36 (n mod base)) acc in
      if n / base =? 0 then acc else format_digits fuel' (n / base) base acc
  end.

(** [strconv.FormatInt] for the bases 2 to 36 and 64-bit integers. *)
Definition FormatInt (i base : Z) : string :=
  if i <? 0 then String "-" (format_digits 64 (- i) base EmptyString)
  else format_digits 64 i base EmptyString.

Definition b64_alphabet : string :=
  "ABCDEFGHIJKLMNOPQRSTUVWXYZabcdefghijklmnopqrstuvwxyz0123456789+/".

Definition b64_char (z : Z) : ascii := string_index b64_alphabet z.

Fixpoint b64_encode (l : list Z) : list ascii :=
  match l with
  | [] => []
  | [a] => [b64_char (a / 4); b64_char ((a mod 4) * 16); "="%char; "="%char]
  | [a; b] =>
      [b64_char (a / 4); b64_char ((a mod 4) * 16 + b / 16);
       b64_char ((b mod 16) * 4); "="%char]
  | a :: b :: c :: rest =>
      b64_char (a / 4) :: b64_char ((a mod 4) * 16 + b / 16)
        :: b64_char ((b mod 16) * 4 + c / 64) :: b64_char (c mod 64)
        :: b64_encode rest
  end.

Definition EncodeToString (src : bytes) : string :=
  string_of_list_ascii (b64_encode (bytes_Z src)).

(** MD5 (RFC 1321) on 32-bit words held in [Z]. *)
Definition w32 (z : Z) : Z := Z.land z 0xffffffff.
Definition not32 (z : Z) : Z := Z.lxor z 0xffffffff.
Definition rotl (x c : Z) : Z :=
  w32 (Z.lor (Z.shiftl x c) (Z.shiftr x (32 - c))).

Definition md5_K : list Z :=
  [0xd76aa478; 0xe8c7b756; 0x242070db; 0xc1bdceee;
   0xf57c0faf; 0x4787c62a; 0xa8304613; 0xfd469501;
   0x698098d8; 0x8b44f7af; 0xffff5bb1; 0x895cd7be;
   0x6b901122; 0xfd987193; 0xa679438e; 0x49b40821;
   0xf61e2562; 0xc040b340; 0x265e5a51; 0xe9b6c7aa;
   0xd62f105d; 0x02441453; 0xd8a1e681; 0xe7d3fbc8;
   0x21e1cde6; 0xc33707d6; 0xf4d50d87; 0x455a14ed;
   0xa9e3e905; 0xfcefa3f8; 0x676f02d9; 0x8d2a4c8a;
   0xfffa3942; 0x8771f681; 0x6d9d6122; 0xfde5380c;
   0xa4beea44; 0x4bdecfa9; 0xf6bb4b60; 0xbebfbc70;
   0x289b7ec6; 0xeaa127fa; 0xd4ef3085; 0x04881d05;
   0xd9d4d039; 0xe6db99e5; 0x1fa27cf8; 0xc4ac5665;
   0xf4292244; 0x432aff97; 0xab9423a7; 0xfc93a039;
   0x655b59c3; 0x8f0ccc92; 0xffeff47d; 0x85845dd1;
   0x6fa87e4f; 0xfe2ce6e0; 0xa3014314; 0x4e0811a1;
   0xf7537e82; 0xbd3af235; 0x2ad7d2bb; 0xeb86d391].

Definition md5_s : list Z :=
  [7; 12; 17; 22; 7; 12; 17; 22; 7; 12; 17; 22; 7; 12; 17; 22;
   5; 9; 14; 20; 5; 9; 14; 20; 5; 9; 14; 20; 5; 9; 14; 20;
   4; 11; 16; 23; 4; 11; 16; 23; 4; 11; 16; 23; 4; 11; 16; 23;
   6; 10; 15; 21; 6; 10; 15; 21; 6; 10; 15; 21; 6; 10; 15; 21].

Fixpoint le_words (l : list Z) : list Z :=
  match l with
  | b0 :: b1 :: b2 :: b3 :: rest =>
      (b0 + 256 * b1 + 65536 * b2 + 16777216 * b3) :: le_words rest
  | _ => []
  end.

Definition le_bytes (n : nat) (z : Z) : list Z :=
  map (fun i => Z.shiftr z (8 * Z.of_nat i) mod 256) (seq 0 n).

Definition md5_pad (msg : list Z) : list Z :=
  let n := length msg in
  msg ++ [128] ++ repeat 0 ((119 - n mod 64) mod 64)
      ++ le_bytes 8 (8 * Z.of_nat n).

Definition md5_state : Type := Z * Z * Z * Z.

Definition md5_step (M : list Z) (st : md5_state) (i : nat) : md5_state :=
  let '(A, B, C, D) := st in
  let iz := Z.of_nat i in
  let '(F, g) :=
    if (i <? 16)%nat then (Z.lor (Z.land B C) (Z.land (not32 B) D), iz)
    else if (i <? 32)%nat then
      (Z.lor (Z.land D B) (Z.land (not32 D) C), (5 * iz + 1) mod 16)
    else if (i <? 48)%nat then (Z.lxor B (Z.lxor C D), (3 * iz + 5) mod 16)
    else (Z.lxor C (Z.lor B (not32 D)), (7 * iz) mod 16) in
  let F := w32 (F + A + nth i md5_K 0 + nth (Z.to_nat g) M 0) in
  (D, w32 (B + rotl F (nth i md5_s 0)), B, C).

Definition md5_block (st : md5_state) (chunk : list Z) : md5_state :=
  let '(a0, b0, c0, d0) := st in
  let '(A, B, C, D) := fold_left (md5_step (le_words chunk)) (seq 0 64) st in
  (w32 (a0 + A), w32 (b0 + B), w32 (c0 + C), w32 (d0 + D)).

Fixpoint md5_blocks (n : nat) (st : md5_state) (l : list Z) : md5_state :=
  match n with
  | O => st
  | S n' => md5_blocks n' (md5_block st (firstn 64 l)) (skipn 64 l)
  end.

Definition md5 (msg : list Z) : list Z :=
  let padded := md5_pad msg in
  let '(A, B, C, D) :=
    md5_blocks (length padded / 64)
               (0x67452301, 0xefcdab89, 0x98badcfe, 0x10325476) padded in
  le_bytes 4 A ++ le_bytes 4 B ++ le_bytes 4 C ++ le_bytes 4 D.

(** HMAC (RFC 2104) over MD5. *)
Definition hmac_md5 (key msg : list Z) : list Z :=
  let key := if (64 <? length key)%nat then md5 key else key in
  let key := key ++ repeat 0 (64 - length key) in
  md5 (map (Z.lxor 0x5c) key ++ md5 (map (Z.lxor 0x36) key ++ msg)).

Definition Sum (key msg : bytes) : bytes :=
  Z_bytes (hmac_md5 (bytes_Z key) (bytes_Z msg)).

Definition hex (b : bytes) : string :=
  string_of_list_ascii
    (flat_map (fun z => [string_index digits36 (z / 16);
                         string_index digits36 (z mod 16)])
              (bytes_Z b)).

#[export] Instance crypto : GoCrypto := {
  base64_StdEncoding_EncodeToString := EncodeToString;
  strconv_FormatInt := FormatInt;
  hmac_md5_Sum := Sum;
  fmt_hex := hex
}.

End RefCrypto.

Module CramExamples.
Import Ref RefCrypto Examples MoreExamples.






End CramExamples.
